(** * Address book: great-circle distance, radius search and the store

    A shallow embedding of [haversine_distance] (utils.py), of the
    endpoints of main.py and of the functions of crud.py, with the
    properties the specification states about them.

    Python's [float] and the [math] module are reached through the
    interface [PyFloat], so that the functions are translated once, for
    any arithmetic.  The statements about control flow (validation,
    error precedence, the per-candidate [try]/[except]) hold for every
    instance of the interface.  The instance [Binary64.binary64] is the
    arithmetic of the program: IEEE 754 binary64 numbers, with the C
    library's [sin], [cos], [atan2] and [pow] as a parameter, of which
    a statement assumes what it needs (the values at the arguments of
    one run, an odd sine, values in the range of the exact functions).
    What is stated of the value of the distance for every input
    (symmetry, bounds) is proved on this instance, from the definitions
    of rounding in [SpecFloat].  In the instance [exact] a float is a
    real number and every operation is the exact one: it gives the
    reference values, and the statements proved on it are those on
    which rounding has no bearing.

    A computation returns, with its value or exception, the calls it
    made into [math], to the store and to [haversine_distance].  Log
    records are left out: the logger calls and the decorator
    [log_input_output] change no value and re-raise what is raised.

    The functions of crud.py and the other endpoints of main.py run on
    a model of the SQLAlchemy session: the committed rows of the table
    [addresses] and the unit of work.  The store itself does not fail
    in this model, so the exceptions seen are those the code raises;
    the statements keep to the integers SQLite holds and to request
    bodies that validate. *)

From Stdlib Require Import Floats Uint63.
From Stdlib Require Import Reals Machin Lra Lia ZArith List Ascii String Bool.
From Stdlib Require Import DecimalString.
Import ListNotations.

Set Implicit Arguments.

(** ** Exceptions and the computation monad *)

(** The two exception classes the code raises.  [math.sqrt] raises
    [ValueError "math domain error"]. *)
Inductive exn : Type :=
| ValueError (msg : string)
| HTTPException (status_code : Z) (detail : string).

(** The functions of the [math] module the code calls. *)
Inductive math_fn : Type := Radians | Sin | Cos | Sqrt | Atan2.

(** Calls whose order the specification speaks about, with their
    arguments; [F] is the type of floats. *)
Inductive event (F : Type) : Type :=
| MathCall (f : math_fn) (args : list F)   (* a call into the math module *)
| QueryAll                                 (* db.query(AddressModel).all() *)
| DistanceCall (id : Z).                   (* haversine_distance run for a row *)

Arguments QueryAll {F}.
Arguments DistanceCall {F} id.

(** A computation yields the calls it made and either the exception it
    raised or its value. *)
Definition M (F A : Type) : Type := (list (event F) * (exn + A))%type.

Section Monad.

Context {F : Type}.

Definition ret {A} (a : A) : M F A := ([], inr a).

Definition raise {A} (e : exn) : M F A := ([], inl e).

Definition tell (ev : event F) : M F unit := ([ev], inr tt).

Definition bind {A B} (m : M F A) (k : A -> M F B) : M F B :=
  match snd m with
  | inl e => (fst m, inl e)
  | inr a => (fst m ++ fst (k a), snd (k a))
  end.

(** [try: m except Exception as e: h e] *)
Definition try_except {A} (m : M F A) (h : exn -> M F A) : M F A :=
  match snd m with
  | inl e => (fst m ++ fst (h e), snd (h e))
  | inr a => m
  end.

Definition trace {A} (m : M F A) : list (event F) := fst m.
Definition result {A} (m : M F A) : exn + A := snd m.

End Monad.

Declare Scope py_scope.
Delimit Scope py_scope with py.
Notation "x <- m ;; k" := (bind m (fun x => k))
  (at level 61, m at next level, right associativity) : py_scope.
Notation "m ;;; k" := (bind m (fun _ => k))
  (at level 61, right associativity) : py_scope.

(** ** Floats and the math module *)

Definition domain_error : exn := ValueError "math domain error".

(** What the two functions use of [float] and [math].  [math.sin],
    [math.cos] and [math.sqrt] may raise [ValueError] (infinite or
    negative argument); the other operations always return. *)
Class PyFloat (F : Type) : Type := {
  of_int : Z -> F;                    (* an int operand, converted *)
  fadd : F -> F -> F;
  fsub : F -> F -> F;
  fmul : F -> F -> F;
  fdiv : F -> F -> F;
  fpow : F -> Z -> F;                 (* [x ** n] *)
  fle : F -> F -> bool;               (* [x <= y] *)
  lib_radians : F -> F;
  lib_sin : F -> option F;
  lib_cos : F -> option F;
  lib_sqrt : F -> option F;
  lib_atan2 : F -> F -> F
}.

Section Code.

Context {F : Type} {arith : PyFloat F}.

Local Open Scope py_scope.

(** A call into [math]: recorded, then its value or the domain error. *)
Definition call (f : math_fn) (r : option F) (args : list F) : M F F :=
  tell (MathCall f args) ;;;
  match r with
  | Some v => ret v
  | None => raise domain_error
  end.

Definition math_radians (x : F) : M F F :=
  call Radians (Some (lib_radians x)) [x].
Definition math_sin (x : F) : M F F := call Sin (lib_sin x) [x].
Definition math_cos (x : F) : M F F := call Cos (lib_cos x) [x].
Definition math_sqrt (x : F) : M F F := call Sqrt (lib_sqrt x) [x].
Definition math_atan2 (y x : F) : M F F :=
  call Atan2 (Some (lib_atan2 y x)) [y; x].

(** [lo <= x <= hi] with int bounds. *)
Definition between (lo : Z) (x : F) (hi : Z) : bool :=
  fle (of_int lo) x && fle x (of_int hi).

(** *** utils.py *)

Definition latitude_error : exn :=
  ValueError "Latitude values must be between -90 and 90 degrees".

Definition longitude_error : exn :=
  ValueError "Longitude values must be between -180 and 180 degrees".

Definition haversine_distance (lat1 lon1 lat2 lon2 : F) : M F F :=
  let EARTH_RADIUS_KM := of_int 6371 in
  if negb (between (-90) lat1 90) || negb (between (-90) lat2 90) then
    raise latitude_error
  else if negb (between (-180) lon1 180) || negb (between (-180) lon2 180) then
    raise longitude_error
  else
    delta_lat <- math_radians (fsub lat2 lat1) ;;
    delta_lon <- math_radians (fsub lon2 lon1) ;;
    s_lat <- math_sin (fdiv delta_lat (of_int 2)) ;;
    r1 <- math_radians lat1 ;;
    c1 <- math_cos r1 ;;
    r2 <- math_radians lat2 ;;
    c2 <- math_cos r2 ;;
    s_lon <- math_sin (fdiv delta_lon (of_int 2)) ;;
    let a := fadd (fpow s_lat 2) (fmul (fmul c1 c2) (fpow s_lon 2)) in
    root_a <- math_sqrt a ;;
    root_1a <- math_sqrt (fsub (of_int 1) a) ;;
    t <- math_atan2 root_a root_1a ;;
    let c := fmul (of_int 2) t in
    let distance := fmul EARTH_RADIUS_KM c in
    ret distance.

(** *** models.py *)

(** A row of the table [addresses]. *)
Record AddressModel : Type := {
  id : Z;
  name : string;
  latitude : F;
  longitude : F
}.

(** *** main.py *)

Definition center_latitude_error : exn :=
  ValueError "Latitude must be between -90 and 90 degrees".

Definition center_longitude_error : exn :=
  ValueError "Longitude must be between -180 and 180 degrees".

Definition radius_error : exn :=
  ValueError "Distance must be a positive value".

Definition search_failed : exn :=
  HTTPException 500 "Failed to search addresses".

(** [db.query(AddressModel).all()]: the rows of the table, in the
    order the store returns them. *)
Definition query_all (db : list AddressModel) : M F (list AddressModel) :=
  tell QueryAll ;;; ret db.

(** The body of the [for] loop, for one row: the inner [try] with its
    [except Exception ... continue]. *)
Definition examine (lat lon distance_km : F) (addr : AddressModel)
    (result : list AddressModel) : M F (list AddressModel) :=
  try_except
    (tell (DistanceCall (id addr)) ;;;
     dist <- haversine_distance lat lon (latitude addr) (longitude addr) ;;
     if fle dist distance_km then ret (result ++ [addr]) else ret result)
    (fun _ => ret result).

(** [for addr in all_addresses: ...], from the rows still to visit and
    the [result] list built so far. *)
Fixpoint scan (lat lon distance_km : F) (all_addresses : list AddressModel)
    (result : list AddressModel) : M F (list AddressModel) :=
  match all_addresses with
  | [] => ret result
  | addr :: rest =>
      result' <- examine lat lon distance_km addr result ;;
      scan lat lon distance_km rest result'
  end.

(** The statements of the outer [try]. *)
Definition search (lat lon distance_km : F) (db : list AddressModel)
    : M F (list AddressModel) :=
  if negb (between (-90) lat 90) then raise center_latitude_error
  else if negb (between (-180) lon 180) then raise center_longitude_error
  else if fle distance_km (of_int 0) then raise radius_error
  else
    all_addresses <- query_all db ;;
    result <- scan lat lon distance_km all_addresses [] ;;
    ret result.

(** The endpoint: any exception of the [try] becomes the HTTP error. *)
Definition get_addresses_within_distance (lat lon distance_km : F)
    (db : list AddressModel) : M F (list AddressModel) :=
  try_except (search lat lon distance_km db) (fun _ => raise search_failed).

(** *** Notions used in the statements *)

(** Whether the scan keeps a row: its distance is computed and is at
    most the radius. *)
Definition within (lat lon distance_km : F) (addr : AddressModel) : bool :=
  match result (haversine_distance lat lon (latitude addr) (longitude addr)) with
  | inr dist => fle dist distance_km
  | inl _ => false
  end.

(** The formula of the specification evaluated in the arithmetic [F]:
    [R * c] with [c = 2 * atan2(sqrt a, sqrt (1 - a))], and [None]
    where a function of [math] has no value. *)
Definition formula (lat1 lon1 lat2 lon2 : F) : option F :=
  let dlat := lib_radians (fsub lat2 lat1) in
  let dlon := lib_radians (fsub lon2 lon1) in
  match lib_sin (fdiv dlat (of_int 2)),
        lib_cos (lib_radians lat1), lib_cos (lib_radians lat2),
        lib_sin (fdiv dlon (of_int 2)) with
  | Some s_lat, Some c1, Some c2, Some s_lon =>
      let a := fadd (fpow s_lat 2) (fmul (fmul c1 c2) (fpow s_lon 2)) in
      match lib_sqrt a, lib_sqrt (fsub (of_int 1) a) with
      | Some root_a, Some root_1a =>
          Some (fmul (of_int 6371) (fmul (of_int 2) (lib_atan2 root_a root_1a)))
      | _, _ => None
      end
  | _, _, _, _ => None
  end.

(** One of the two squared sines of [a]: that of half an angle given
    in degrees, and [None] where [math.sin] has no value. *)
Definition haversine_term (degrees : F) : option F :=
  option_map (fun s => fpow s 2)
    (lib_sin (fdiv (lib_radians degrees) (of_int 2))).

(** The three checks at the head of the endpoint all pass. *)
Definition accepted (lat lon distance_km : F) : Prop :=
  between (-90) lat 90 = true /\ between (-180) lon 180 = true /\
  fle distance_km (of_int 0) = false.

End Code.

Arguments AddressModel F : clear implicits.

(** The error kinds of the specification, as the exceptions that stand
    for them in the code. *)
Definition InvalidCoordinate (e : exn) : Prop :=
  e = latitude_error \/ e = longitude_error \/
  e = center_latitude_error \/ e = center_longitude_error.

Definition InvalidRadius (e : exn) : Prop := e = radius_error.

(** ** Exact arithmetic *)

Local Open Scope R_scope.

Definition Rleb (x y : R) : bool := if Rle_dec x y then true else false.

(** [math.atan2(y, x)]: the angle of the point [(x, y)], in (-PI, PI]. *)
Definition Ratan2 (y x : R) : R :=
  if Rlt_dec 0 x then atan (y / x)
  else if Rlt_dec x 0 then
    if Rle_dec 0 y then atan (y / x) + PI else atan (y / x) - PI
  else if Rlt_dec 0 y then PI / 2
  else if Rlt_dec y 0 then - (PI / 2)
  else 0.

(** [math.sqrt(x)] raises [ValueError] when [x < 0]. *)
Definition Rsqrt_checked (x : R) : option R :=
  if Rlt_dec x 0 then None else Some (sqrt x).

(** [math.radians(x)] is [x * (pi / 180)]. *)
Definition Rradians (x : R) : R := x * (PI / 180).

#[export] Instance exact : PyFloat R := {|
  of_int := IZR;
  fadd := Rplus;
  fsub := Rminus;
  fmul := Rmult;
  fdiv := Rdiv;
  fpow := powerRZ;
  fle := Rleb;
  lib_radians := Rradians;
  lib_sin := fun x => Some (sin x);
  lib_cos := fun x => Some (cos x);
  lib_sqrt := Rsqrt_checked;
  lib_atan2 := Ratan2
|}.

(** *** The reference definition, in the words of the specification *)

Module Reference.

Definition earth_radius : R := 6371.

(** [a = sin^2(dlat/2) + cos(radians lat1) cos(radians lat2) sin^2(dlon/2)] *)
Definition haversine_a (lat1 lon1 lat2 lon2 : R) : R :=
  let dlat := Rradians (lat2 - lat1) in
  let dlon := Rradians (lon2 - lon1) in
  (sin (dlat / 2))² + cos (Rradians lat1) * cos (Rradians lat2) * (sin (dlon / 2))².

(** [c = 2 atan2(sqrt a, sqrt (1 - a))] *)
Definition haversine_c (lat1 lon1 lat2 lon2 : R) : R :=
  let a := haversine_a lat1 lon1 lat2 lon2 in
  2 * Ratan2 (sqrt a) (sqrt (1 - a)).

(** [distance = R c] *)
Definition haversine (lat1 lon1 lat2 lon2 : R) : R :=
  earth_radius * haversine_c lat1 lon1 lat2 lon2.

End Reference.

(** The domain of a coordinate pair. *)
Definition valid_latitude (lat : R) : Prop := -90 <= lat <= 90.
Definition valid_longitude (lon : R) : Prop := -180 <= lon <= 180.

(** The rows whose coordinates are in their domains. *)
Definition valid_row (addr : AddressModel R) : Prop :=
  valid_latitude (latitude addr) /\ valid_longitude (longitude addr).

(** The great-circle distance from a center to a row. *)
Definition distance_to (lat lon : R) (addr : AddressModel R) : R :=
  Reference.haversine lat lon (latitude addr) (longitude addr).

(** The calls one run of the formula makes, in order. *)
Definition formula_calls (lat1 lon1 lat2 lon2 : R) : list (event R) :=
  let dlat := Rradians (lat2 - lat1) in
  let dlon := Rradians (lon2 - lon1) in
  let a := Reference.haversine_a lat1 lon1 lat2 lon2 in
  [ MathCall Radians [lat2 - lat1];
    MathCall Radians [lon2 - lon1];
    MathCall Sin [dlat / 2];
    MathCall Radians [lat1];
    MathCall Cos [Rradians lat1];
    MathCall Radians [lat2];
    MathCall Cos [Rradians lat2];
    MathCall Sin [dlon / 2];
    MathCall Sqrt [a];
    MathCall Sqrt [1 - a];
    MathCall Atan2 [sqrt a; sqrt (1 - a)] ].

(** Which of the four values is out of its domain, and on which side. *)
Inductive coordinate : Type := Lat1 | Lon1 | Lat2 | Lon2.
Inductive bound : Type := Lower | Upper.

Definition violates (lat1 lon1 lat2 lon2 : R) (c : coordinate) (b : bound)
    : Prop :=
  match c, b with
  | Lat1, Lower => lat1 < -90
  | Lat1, Upper => 90 < lat1
  | Lat2, Lower => lat2 < -90
  | Lat2, Upper => 90 < lat2
  | Lon1, Lower => lon1 < -180
  | Lon1, Upper => 180 < lon1
  | Lon2, Lower => lon2 < -180
  | Lon2, Upper => 180 < lon2
  end.

(** The error raised tells which value and which bound was violated:
    some reading [describe] of the exception always points at a
    violated bound of the input. *)
Definition error_names_violation : Prop :=
  exists describe : exn -> coordinate * bound,
  forall lat1 lon1 lat2 lon2 : R,
    (exists c b, violates lat1 lon1 lat2 lon2 c b) ->
    exists e,
      result (haversine_distance lat1 lon1 lat2 lon2) = inl e /\
      violates lat1 lon1 lat2 lon2 (fst (describe e)) (snd (describe e)).

(** *** Sample points *)

Definition home : AddressModel R :=
  {| id := 1; name := "Home"; latitude := 0; longitude := 0 |}.

(** The antipode of [home]. *)
Definition far : AddressModel R :=
  {| id := 2; name := "Far"; latitude := 0; longitude := 180 |}.

(** A stored row whose latitude is out of its domain. *)
Definition broken : AddressModel R :=
  {| id := 3; name := "Broken"; latitude := 100; longitude := 0 |}.

(** ** Binary64 arithmetic *)

Module Binary64.

Local Open Scope float_scope.

(** The functions of the C library that CPython's [math] module and
    [float.__pow__] call. *)
Record Libm : Type := {
  libm_sin : float -> option float;
  libm_cos : float -> option float;
  libm_atan2 : float -> float -> float;
  libm_pow : float -> float -> float
}.

(** An int operand converted to a float (exact below 2^53). *)
Definition float_of_int (z : Z) : float :=
  match z with
  | Z0 => 0
  | Zpos _ => PrimFloat.of_uint63 (Uint63.of_Z z)
  | Zneg _ => - PrimFloat.of_uint63 (Uint63.of_Z (- z))
  end.

(** [Py_MATH_PI] and [degToRad = Py_MATH_PI / 180.0] of mathmodule.c. *)
Definition Py_MATH_PI : float := 0x1.921fb54442d18p+1.
Definition degToRad : float := Py_MATH_PI / 180.

(** [math.sqrt] raises [ValueError] on a negative argument. *)
Definition sqrt_checked (x : float) : option float :=
  if x <? 0 then None else Some (PrimFloat.sqrt x).

Definition binary64 (libm : Libm) : PyFloat float := {|
  of_int := float_of_int;
  fadd := PrimFloat.add;
  fsub := PrimFloat.sub;
  fmul := PrimFloat.mul;
  fdiv := PrimFloat.div;
  fpow := fun x n => libm_pow libm x (float_of_int n);
  fle := PrimFloat.leb;
  lib_radians := fun x => x * degToRad;
  lib_sin := libm_sin libm;
  lib_cos := libm_cos libm;
  lib_sqrt := sqrt_checked;
  lib_atan2 := libm_atan2 libm
|}.

(** The real number a finite binary64 number stands for. *)
Definition SF2R (x : spec_float) : R :=
  match x with
  | S754_finite s m e =>
      ((if s then -1 else 1) * IZR (Zpos m) * powerRZ 2 e)%R
  | _ => 0%R
  end.

Definition B2R (x : float) : R := SF2R (Prim2SF x).

(** [y] rounds to [x]: it lies strictly between the midpoints of [x]
    and the two binary64 numbers next to it. *)
Definition rounds_to (y : R) (x : float) : Prop :=
  ((B2R (next_down x) + B2R x) / 2 < y < (B2R x + B2R (next_up x)) / 2)%R.

(** 8 and 90 degrees in radians, as [math.radians] returns them. *)
Definition eight_degrees : float := 0x1.1df46a2529d39p-3.
Definition ninety_degrees : float := 0x1.921fb54442d18p+0.

(** The sine and the cosine of 8 degrees and the square of that sine,
    rounded to nearest. *)
Definition sin_8 : float := 0x1.1d06c968d9e19p-3.
Definition cos_8 : float := 0x1.fb046a930947ap-1.
Definition sin_8_squared : float := 0x1.3d581ca184804p-6.

(** What the library returns at the arguments reached from the input
    [(8, 0, -8, 180)]: at each of them the binary64 number nearest to
    the exact value (lemma [returned_values_are_nearest]). *)
Definition returns_nearest (libm : Libm) : Prop :=
  libm_sin libm (- eight_degrees) = Some (- sin_8) /\
  libm_cos libm eight_degrees = Some cos_8 /\
  libm_cos libm (- eight_degrees) = Some cos_8 /\
  libm_sin libm ninety_degrees = Some 1 /\
  libm_pow libm (- sin_8) 2 = sin_8_squared /\
  libm_pow libm 1 2 = 1.

(** A library that answers at those arguments only. *)
Definition table : Libm := {|
  libm_sin := fun x =>
    if x =? - eight_degrees then Some (- sin_8)
    else if x =? ninety_degrees then Some 1
    else None;
  libm_cos := fun x =>
    if PrimFloat.abs x =? eight_degrees then Some cos_8
    else None;
  libm_atan2 := fun _ _ => 0;
  libm_pow := fun x _ => x * x
|}.

(** A stored row at the antipode of the point (8, 0). *)
Definition antipode : AddressModel float :=
  {| id := 1; name := "Antipode"; latitude := -8; longitude := 180 |}.

(** *** What is assumed of the C library *)

(** The sine is an odd function, and a square does not depend on the
    sign. *)
Definition sine_is_odd (libm : Libm) : Prop :=
  forall x, libm_sin libm (- x) = option_map PrimFloat.opp (libm_sin libm x).

Definition square_is_even (libm : Libm) : Prop :=
  forall x, libm_pow libm (- x) 2 = libm_pow libm x 2.



(** Two small libraries for which this holds: the first-order
    approximations at zero, and a coarse library whose values are 0, 1
    and the right angle. *)
Definition small_angle : Libm := {|
  libm_sin := fun x => Some x;
  libm_cos := fun _ => Some 1;
  libm_atan2 := fun y _ => y;
  libm_pow := fun x _ => x * x
|}.


(** *** The [Float] column *)

(** What SQLite gives back for a float: the negative zero is stored as
    the integer 0 and read back as [0.0]. *)
Definition positive_zero (x : float) : float := if x =? 0 then 0 else x.

End Binary64.

(** ** The rounding of binary64 *)

(** What the operations of [SpecFloat] compute when they round, written
    on integers: the lemmas on the order of binary64 numbers are proved
    through these definitions. *)
Module Round64.

Local Open Scope Z_scope.

Abbreviation fexp64 := (SpecFloat.fexp FloatOps.prec FloatOps.emax).
Abbreviation round64 := (binary_round_aux FloatOps.prec FloatOps.emax).
Abbreviation valid64 := (SpecFloat.valid_binary FloatOps.prec FloatOps.emax).
Abbreviation SFmul64 := (SFmul FloatOps.prec FloatOps.emax).
Abbreviation SFdiv64 := (SFdiv FloatOps.prec FloatOps.emax).
Abbreviation SFadd64 := (SFadd FloatOps.prec FloatOps.emax).
Abbreviation SFsub64 := (SFsub FloatOps.prec FloatOps.emax).
Abbreviation SFsqrt64 := (SFsqrt FloatOps.prec FloatOps.emax).









End Round64.

(** ** The store, crud.py and the other endpoints of main.py *)

(** *** schemas.py *)

Module Schemas.

(** [len(s)] of a [str].  A string is held as its UTF-8 encoding, and
    its characters are counted at the bytes that begin one: all but
    the continuation bytes [0x80] to [0xBF]. *)
Definition continuation (c : ascii) : bool :=
  let n := N_of_ascii c in (128 <=? n)%N && (n <? 192)%N.

Fixpoint len (s : string) : nat :=
  match s with
  | EmptyString => 0
  | String c rest => if continuation c then len rest else S (len rest)
  end.

Section Schemas.

Context {F : Type} {arith : PyFloat F}.

(** [Addressbase]; [AddressCreate] and [AddressUpdate] add nothing to
    it. *)
Record Addressbase : Type := {
  name : string;
  latitude : F;
  longitude : F
}.

Definition AddressCreate : Type := Addressbase.
Definition AddressUpdate : Type := Addressbase.

(** The constraints of the three fields: [max_length=10], which counts
    characters, [ge=-90, le=90] and [ge=-180, le=180].  A request body
    reaches an endpoint only when it satisfies them. *)
Definition validates (address : Addressbase) : bool :=
  (len (name address) <=? 10)%nat &&
  between (-90) (latitude address) 90 &&
  between (-180) (longitude address) 180.

End Schemas.

Arguments Addressbase F : clear implicits.
Arguments AddressCreate F : clear implicits.
Arguments AddressUpdate F : clear implicits.

End Schemas.

(** *** The session *)

Module Db.

(** [str(n)] of an int. *)
Definition str_int (z : Z) : string := NilZero.string_of_int (Z.to_int z).

(** What crud.py and the endpoints can see raised: an exception of the
    code itself, or one of SQLAlchemy's, of which the code reads the
    text only. *)
Inductive raised : Type :=
| Py (e : exn)
| SQLAlchemyError (text : string).

(** [str(e)], as the f-strings of crud.py read it. *)
Definition str (e : raised) : string :=
  match e with
  | Py (ValueError msg) => msg
  | Py (HTTPException status_code detail) =>
      (str_int status_code ++ ": " ++ detail)%string
  | SQLAlchemyError text => text
  end.

(** An [Integer] of SQLite is a signed 64-bit number: the driver
    refuses to bind an int outside this range, and the statements
    about an [id] that is looked up are made within it. *)
Definition sqlite_integer (n : Z) : Prop := (- 2 ^ 63 <= n < 2 ^ 63)%Z.

(** The largest rowid.  Once it is in use SQLite no longer numbers a
    new row one above the largest. *)
Definition max_rowid : Z := 2 ^ 63 - 1.

(** What a [Float] column gives back for the float written to it.
    SQLite keeps a float that is a whole number as an integer, so the
    value read is the same number, compared by [<=] as the one written,
    but need not be the same float: in binary64, [-0.0] is read back as
    [0.0]. *)
Class SqliteReal (F : Type) {arith : PyFloat F} : Type := {
  sqlite_real : F -> F;
  sqlite_real_le : forall x y, fle (sqlite_real x) y = fle x y;
  sqlite_real_ge : forall x y, fle y (sqlite_real x) = fle y x
}.

Arguments SqliteReal F {arith}.

Section Session.

Context {F : Type} {arith : PyFloat F} {store : SqliteReal F}.

(** A session on the table [addresses]: the committed rows, and the
    unit of work, as [Session.new], [Session.dirty] and
    [Session.deleted] hold it.  A transient object has no [id] yet and
    is kept as its three fields. *)
Record Session : Type := {
  table : list (AddressModel F);
  new : list (string * F * F);
  dirty : list (AddressModel F);
  deleted : list Z
}.

(** A computation on a session: the exception raised or the value, and
    the session as it is left. *)
Definition DB (A : Type) : Type := Session -> (raised + A) * Session.

Definition ret {A} (a : A) : DB A := fun db => (inr a, db).

Definition raise {A} (e : raised) : DB A := fun db => (inl e, db).

Definition bind {A B} (m : DB A) (k : A -> DB B) : DB B :=
  fun db =>
    match m db with
    | (inl e, db') => (inl e, db')
    | (inr a, db') => k a db'
    end.

(** [try: m except Exception as e: h e] *)
Definition try_except {A} (m : DB A) (h : raised -> DB A) : DB A :=
  fun db =>
    match m db with
    | (inl e, db') => h e db'
    | (inr a, db') => (inr a, db')
    end.

(** The rowid SQLite gives an inserted row of a table declared with an
    [Integer] primary key: 1 in an empty table, else one more than the
    largest in use, as long as that is at most [max_rowid]. *)
Definition next_rowid (rows : list (AddressModel F)) : Z :=
  match rows with
  | [] => 1
  | row :: rest => 1 + fold_left Z.max (map id rest) (id row)
  end.

Definition has_id (address_id : Z) (row : AddressModel F) : bool :=
  (id row =? address_id)%Z.

(** [db.query(AddressModel).filter(AddressModel.id == address_id).first()],
    for an [address_id] that is a [sqlite_integer]. *)
Definition query_first (address_id : Z) : DB (option (AddressModel F)) :=
  fun db => (inr (find (has_id address_id) (table db)), db).

(** [db.query(AddressModel).all()] *)
Definition query_all : DB (list (AddressModel F)) :=
  fun db => (inr (table db), db).

(** [db.add(obj)] *)
Definition add (obj : string * F * F) : DB unit :=
  fun db =>
    (inr tt, {| table := table db; new := new db ++ [obj];
                dirty := dirty db; deleted := deleted db |}).

(** An attribute of a loaded object is set: the session holds the
    object as modified. *)
Definition modified (obj : AddressModel F) : DB unit :=
  fun db =>
    (inr tt,
     {| table := table db; new := new db;
        dirty := filter (fun row => negb (has_id (id obj) row)) (dirty db)
                 ++ [obj];
        deleted := deleted db |}).

(** [db.delete(obj)] *)
Definition delete (obj : AddressModel F) : DB unit :=
  fun db =>
    (inr tt, {| table := table db; new := new db;
                dirty := dirty db; deleted := deleted db ++ [id obj] |}).

(** The row that holds the attributes of an object once they are
    written to the table. *)
Definition written (obj : AddressModel F) : AddressModel F :=
  {| id := id obj; name := name obj;
     latitude := sqlite_real (latitude obj);
     longitude := sqlite_real (longitude obj) |}.

(** The INSERT of one added object. *)
Definition insert (rows : list (AddressModel F)) (obj : string * F * F)
    : list (AddressModel F) :=
  let '(obj_name, obj_latitude, obj_longitude) := obj in
  rows ++ [written {| id := next_rowid rows; name := obj_name;
                      latitude := obj_latitude;
                      longitude := obj_longitude |}].

(** The UPDATE of one modified object: [WHERE id = ...]. *)
Definition update (rows : list (AddressModel F)) (obj : AddressModel F)
    : list (AddressModel F) :=
  map (fun row => if has_id (id obj) row then written obj else row) rows.

(** The DELETE of one object: [WHERE id = ...]. *)
Definition remove (rows : list (AddressModel F)) (address_id : Z)
    : list (AddressModel F) :=
  filter (fun row => negb (has_id address_id row)) rows.

(** The flush: inserts, updates, then deletes. *)
Definition flush (db : Session) : list (AddressModel F) :=
  fold_left remove (deleted db)
    (fold_left update (dirty db) (fold_left insert (new db) (table db))).

(** [db.commit()]: flushes and ends the transaction.  Its value is the
    rows inserted for the added objects, in the order they were added:
    the flush is what gives such an object its [id]. *)
Definition commit : DB (list (AddressModel F)) :=
  fun db =>
    let inserted := fold_left insert (new db) (table db) in
    (inr (skipn (List.length (table db)) inserted),
     {| table := flush db; new := []; dirty := []; deleted := [] |}).

(** [db.rollback()]: the unit of work is dropped. *)
Definition rollback : DB unit :=
  fun db =>
    (inr tt, {| table := table db; new := []; dirty := []; deleted := [] |}).

(** [db.refresh(obj)]: the attributes are loaded again from the row of
    the object; an error of SQLAlchemy when the row is gone. *)
Definition refresh (obj : AddressModel F) : DB (AddressModel F) :=
  fun db =>
    match find (has_id (id obj)) (table db) with
    | Some row => (inr row, db)
    | None => (inl (SQLAlchemyError "Could not refresh instance"), db)
    end.

End Session.

Arguments Session F : clear implicits.
Arguments DB F A : clear implicits.

End Db.

(** In exact arithmetic the number read is the number written. *)
#[export] Instance exact_store : Db.SqliteReal R := {|
  Db.sqlite_real := fun x => x;
  Db.sqlite_real_le := fun x y => eq_refl;
  Db.sqlite_real_ge := fun x y => eq_refl
|}.

Declare Scope db_scope.
Delimit Scope db_scope with db.
Notation "x <- m ;; k" := (Db.bind m (fun x => k))
  (at level 61, m at next level, right associativity) : db_scope.
Notation "m ;;; k" := (Db.bind m (fun _ => k))
  (at level 61, right associativity) : db_scope.

Section Crud.

Import Db.

Context {F : Type} {arith : PyFloat F} {store : SqliteReal F}.

Local Open Scope db_scope.
Local Open Scope string_scope.

(** [obj.name = value], and likewise for the two coordinates: the
    object with the attribute set, which the session now holds as
    modified. *)
Definition setattr_name (obj : AddressModel F) (value : string)
    : DB F (AddressModel F) :=
  let obj := {| id := id obj; name := value;
                latitude := latitude obj; longitude := longitude obj |} in
  modified obj ;;; ret obj.

Definition setattr_latitude (obj : AddressModel F) (value : F)
    : DB F (AddressModel F) :=
  let obj := {| id := id obj; name := name obj;
                latitude := value; longitude := longitude obj |} in
  modified obj ;;; ret obj.

Definition setattr_longitude (obj : AddressModel F) (value : F)
    : DB F (AddressModel F) :=
  let obj := {| id := id obj; name := name obj;
                latitude := latitude obj; longitude := value |} in
  modified obj ;;; ret obj.

(** *** crud.py *)

Definition create_address (address : Schemas.AddressCreate F)
    : DB F (AddressModel F) :=
  try_except
    (let new_address := (Schemas.name address, Schemas.latitude address,
                         Schemas.longitude address) in
     add new_address ;;;
     inserted <- commit ;;
     match rev inserted with
     | new_address :: _ =>
         new_address <- refresh new_address ;;
         ret new_address
     | [] =>
         raise (SQLAlchemyError "Instance is not persistent within this Session")
     end)
    (fun e =>
       rollback ;;;
       raise (Py (ValueError ("Error creating address: " ++ str e)))).

Definition get_address (address_id : Z) : DB F (AddressModel F) :=
  try_except
    (address <- query_first address_id ;;
     match address with
     | None =>
         raise (Py (ValueError
                      ("Address with ID " ++ str_int address_id ++ " not found")))
     | Some address => ret address
     end)
    (fun e => raise (Py (ValueError ("Error retrieving address: " ++ str e)))).

Definition get_all_addresses : DB F (list (AddressModel F)) :=
  try_except
    (addresses <- query_all ;;
     ret addresses)
    (fun e => raise (Py (ValueError ("Error retrieving addresses: " ++ str e)))).

Definition update_address (address_id : Z)
    (address_update : Schemas.AddressUpdate F) : DB F (AddressModel F) :=
  try_except
    (address <- get_address address_id ;;
     address <- setattr_name address (Schemas.name address_update) ;;
     address <- setattr_latitude address (Schemas.latitude address_update) ;;
     address <- setattr_longitude address (Schemas.longitude address_update) ;;
     commit ;;;
     address <- refresh address ;;
     ret address)
    (fun e =>
       rollback ;;;
       raise (Py (ValueError ("Error updating address: " ++ str e)))).

Definition delete_address (address_id : Z) : DB F unit :=
  try_except
    (address <- get_address address_id ;;
     delete address ;;;
     commit ;;;
     ret tt)
    (fun e =>
       rollback ;;;
       raise (Py (ValueError ("Error deleting address: " ++ str e)))).

(** *** main.py *)

(** [SessionLocal()] on a database, and [get_db]: a request runs its
    endpoint on a session of its own, which is closed on every path;
    what stays is the committed table. *)
Definition SessionLocal (database : list (AddressModel F)) : Session F :=
  {| table := database; new := []; dirty := []; deleted := [] |}.

Definition get_db {A} (endpoint : DB F A) (database : list (AddressModel F))
    : (raised + A) * list (AddressModel F) :=
  let db := SessionLocal database in
  let '(response, db) := endpoint db in
  (response, table db).

Definition create_addr (address : Schemas.AddressCreate F)
    : DB F (AddressModel F) :=
  try_except
    (db_address <- create_address address ;;
     ret db_address)
    (fun _ => raise (Py (HTTPException 500 "Failed to create address"))).

Definition read_addrs : DB F (list (AddressModel F)) :=
  try_except
    (addresses <- get_all_addresses ;;
     ret addresses)
    (fun _ => raise (Py (HTTPException 500 "Failed to retrieve addresses"))).

Definition read_addr (address_id : Z) : DB F (AddressModel F) :=
  try_except
    (db_address <- get_address address_id ;;
     ret db_address)
    (fun _ => raise (Py (HTTPException 404 "Address not found"))).

Definition update_addr (address_id : Z) (address : Schemas.AddressUpdate F)
    : DB F (AddressModel F) :=
  try_except
    (db_address <- update_address address_id address ;;
     ret db_address)
    (fun _ => raise (Py (HTTPException 500 "Failed to update address"))).

Definition delete_addr (address_id : Z) : DB F (list (string * string)) :=
  try_except
    (delete_address address_id ;;;
     ret [("detail", "Address deleted successfully")])
    (fun _ => raise (Py (HTTPException 500 "Failed to delete address"))).

(** *** Notions used in the statements *)

(** No change is waiting in the session. *)
Definition clean (db : Session F) : Prop :=
  new db = [] /\ dirty db = [] /\ deleted db = [].

(** The primary key: no two rows have the same [id]. *)
Definition unique_ids (rows : list (AddressModel F)) : Prop :=
  NoDup (map id rows).

(** The object that has a given [id] and the attributes of an address,
    and the row it is stored as. *)
Definition object_of (address_id : Z) (address : Schemas.Addressbase F)
    : AddressModel F :=
  {| id := address_id; name := Schemas.name address;
     latitude := Schemas.latitude address;
     longitude := Schemas.longitude address |}.

Definition row_of (address_id : Z) (address : Schemas.Addressbase F)
    : AddressModel F :=
  written (object_of address_id address).

(** The message of [get_address] for an [id] no row has. *)
Definition not_found (address_id : Z) : string :=
  "Address with ID " ++ str_int address_id ++ " not found".

(** The body of the response of [delete_addr]. *)
Definition deleted_response : list (string * string) :=
  [("detail", "Address deleted successfully")].

End Crud.

Section Stored.

Context {F : Type} {arith : PyFloat F} {store : Db.SqliteReal F}.

(** A stored row satisfies the constraints of schemas.py, so that
    [AddressOut] accepts it. *)
Definition stored_validates (row : AddressModel F) : bool :=
  Schemas.validates
    {| Schemas.name := name row; Schemas.latitude := latitude row;
       Schemas.longitude := longitude row |}.

(** Every row satisfies the constraints. *)
Definition all_validate (rows : list (AddressModel F)) : Prop :=
  Forall (fun row => stored_validates row = true) rows.

(** The rows [haversine_distance] was run for, and the number of
    queries to the store, in a list of calls. *)
Definition distance_calls (events : list (event F)) : list Z :=
  flat_map (fun ev => match ev with DistanceCall n => [n] | _ => [] end) events.

Definition store_queries (events : list (event F)) : nat :=
  List.length (filter (fun ev => match ev with QueryAll => true | _ => false end)
                 events).

(** The calls of a computation are calls into [math] only. *)
Definition math_only {A} (m : M F A) : Prop :=
  distance_calls (trace m) = [] /\ store_queries (trace m) = 0%nat.

(** The databases the endpoints can build from the empty one, when
    every request body validates. *)
Inductive reachable : list (AddressModel F) -> Prop :=
| reachable_empty : reachable []
| reachable_create database address :
    reachable database -> Schemas.validates address = true ->
    reachable (snd (get_db (create_addr address) database))
| reachable_update database address_id address :
    reachable database -> Schemas.validates address = true ->
    reachable (snd (get_db (update_addr address_id address) database))
| reachable_delete database address_id :
    reachable database ->
    reachable (snd (get_db (delete_addr address_id) database)).

End Stored.

(** A request body that validates. *)
Definition office : Schemas.Addressbase R :=
  {| Schemas.name := "Office"; Schemas.latitude := 12.9716;
     Schemas.longitude := 77.5946 |}.

(** A name of six letters, each an e with an acute accent: two bytes in
    UTF-8, so twelve bytes in all. *)
Definition e_acute : string := String "195" (String "169" EmptyString).

Definition accented : Schemas.Addressbase R :=
  {| Schemas.name :=
       (e_acute ++ e_acute ++ e_acute ++ e_acute ++ e_acute ++ e_acute)%string;
     Schemas.latitude := 48.8566; Schemas.longitude := 2.3522 |}.

(** ** Laws of the monad *)

Section MonadLaws.

Context {F A B : Type}.

Lemma result_bind (m : M F A) (k : A -> M F B) :
  result (bind m k) =
  match result m with
  | inl e => inl e
  | inr a => result (k a)
  end.
Proof. unfold result, bind. destruct (snd m); reflexivity. Qed.

Lemma result_try_except (m : M F A) (h : exn -> M F A) :
  result (try_except m h) =
  match result m with
  | inl e => result (h e)
  | inr a => inr a
  end.
Proof.
  unfold result, try_except. destruct (snd m) eqn:Hm; [reflexivity | exact Hm].
Qed.

Lemma result_ret (a : A) : result (ret a : M F A) = inr a.
Proof. reflexivity. Qed.

Lemma result_raise (e : exn) : result (raise e : M F A) = inl e.
Proof. reflexivity. Qed.

Lemma result_tell (ev : event F) : result (tell ev) = inr tt.
Proof. reflexivity. Qed.

End MonadLaws.

(** Evaluate the result of a sequence of binds, one step at a time. *)
Ltac step_result :=
  repeat first
    [ rewrite result_bind | rewrite result_tell | rewrite result_ret
    | rewrite result_raise | progress cbv beta iota ].

(** ** The validation and the scan, for every arithmetic *)

Section Generic.

Context {F : Type} {arith : PyFloat F}.

Lemma haversine_latitude_rejected (lat1 lon1 lat2 lon2 : F) :
  between (-90) lat1 90 = false \/ between (-90) lat2 90 = false ->
  haversine_distance lat1 lon1 lat2 lon2 = ([], inl latitude_error).
Proof.
  intros [Hout | Hout]; unfold haversine_distance; rewrite Hout;
    [|rewrite orb_true_r]; reflexivity.
Qed.

Lemma haversine_longitude_rejected (lat1 lon1 lat2 lon2 : F) :
  between (-90) lat1 90 = true -> between (-90) lat2 90 = true ->
  between (-180) lon1 180 = false \/ between (-180) lon2 180 = false ->
  haversine_distance lat1 lon1 lat2 lon2 = ([], inl longitude_error).
Proof.
  intros Hlat1 Hlat2 [Hout | Hout]; unfold haversine_distance;
    rewrite Hlat1, Hlat2, Hout; [|rewrite orb_true_r]; reflexivity.
Qed.

(** On coordinates that pass the checks the function computes the
    formula, and raises the domain error where the formula has no
    value. *)
Lemma haversine_distance_formula (lat1 lon1 lat2 lon2 : F) :
  between (-90) lat1 90 = true -> between (-90) lat2 90 = true ->
  between (-180) lon1 180 = true -> between (-180) lon2 180 = true ->
  result (haversine_distance lat1 lon1 lat2 lon2) =
  match formula lat1 lon1 lat2 lon2 with
  | Some distance => inr distance
  | None => inl domain_error
  end.
Proof.
  intros Hlat1 Hlat2 Hlon1 Hlon2. unfold haversine_distance, formula.
  rewrite Hlat1, Hlat2, Hlon1, Hlon2. cbn [negb orb].
  unfold math_radians, math_sin, math_cos, math_sqrt, math_atan2, call.
  step_result.
  destruct (lib_sin _) as [s_lat|]; step_result; [|reflexivity].
  destruct (lib_cos _) as [c1|]; step_result; [|reflexivity].
  destruct (lib_cos _) as [c2|]; step_result; [|reflexivity].
  destruct (lib_sin _) as [s_lon|]; step_result; [|reflexivity].
  destruct (lib_sqrt _) as [root_a|]; step_result; [|reflexivity].
  destruct (lib_sqrt _) as [root_1a|]; step_result; reflexivity.
Qed.

Lemma examine_result (lat lon distance_km : F) (addr : AddressModel F)
    (acc : list (AddressModel F)) :
  result (examine lat lon distance_km addr acc) =
  inr (if within lat lon distance_km addr then acc ++ [addr] else acc).
Proof.
  unfold examine, within. rewrite result_try_except, !result_bind.
  rewrite result_tell.
  destruct (result (haversine_distance lat lon (latitude addr) (longitude addr)))
    as [e | dist]; [reflexivity|].
  destruct (fle dist distance_km); reflexivity.
Qed.

Lemma scan_result (lat lon distance_km : F) (rows acc : list (AddressModel F)) :
  result (scan lat lon distance_km rows acc) =
  inr (acc ++ filter (within lat lon distance_km) rows).
Proof.
  revert acc. induction rows as [| addr rest IH]; intros acc.
  - cbn. rewrite app_nil_r. reflexivity.
  - cbn [scan filter]. rewrite result_bind, examine_result, IH.
    destruct (within lat lon distance_km addr); [|reflexivity].
    rewrite <- app_assoc. reflexivity.
Qed.

Lemma search_result (lat lon distance_km : F) (db : list (AddressModel F)) :
  accepted lat lon distance_km ->
  result (search lat lon distance_km db) =
  inr (filter (within lat lon distance_km) db).
Proof.
  intros (Hlat & Hlon & Hrad). unfold search. rewrite Hlat, Hlon, Hrad.
  cbn [negb]. unfold query_all. step_result.
  rewrite scan_result. reflexivity.
Qed.

Lemma endpoint_result (lat lon distance_km : F) (db : list (AddressModel F)) :
  accepted lat lon distance_km ->
  result (get_addresses_within_distance lat lon distance_km db) =
  inr (filter (within lat lon distance_km) db).
Proof.
  intros Hacc. unfold get_addresses_within_distance.
  rewrite result_try_except, (search_result db Hacc). reflexivity.
Qed.

End Generic.

(** ** Lemmas on the exact instance *)

Lemma Rleb_true (x y : R) : Rleb x y = true <-> x <= y.
Proof.
  unfold Rleb. destruct (Rle_dec x y); split; intros; auto; discriminate.
Qed.

Lemma Rleb_false (x y : R) : Rleb x y = false <-> y < x.
Proof.
  unfold Rleb. destruct (Rle_dec x y); split; intros; try discriminate;
    try lra; auto.
Qed.

Lemma between_exact (lo hi : Z) (x : R) :
  between lo x hi = true <-> IZR lo <= x <= IZR hi.
Proof.
  unfold between. simpl. rewrite andb_true_iff, !Rleb_true. tauto.
Qed.

Lemma between_latitude (lat : R) :
  between (-90) lat 90 = true <-> valid_latitude lat.
Proof. apply between_exact. Qed.

Lemma between_longitude (lon : R) :
  between (-180) lon 180 = true <-> valid_longitude lon.
Proof. apply between_exact. Qed.

Lemma radians_sub (x y : R) : Rradians (x - y) = Rradians x - Rradians y.
Proof. unfold Rradians. ring. Qed.

Lemma radians_range (x b : R) :
  - b <= x <= b -> - (b * (PI / 180)) <= Rradians x <= b * (PI / 180).
Proof.
  intros Hx. unfold Rradians. pose proof PI_RGT_0 as Hpi. nra.
Qed.

Lemma cos_radians_nonneg (lat : R) :
  valid_latitude lat -> 0 <= cos (Rradians lat).
Proof.
  intros Hlat. unfold valid_latitude in Hlat.
  destruct (radians_range (x := lat) (b := 90)) as [Hlo Hhi]; [lra|].
  apply cos_ge_0; lra.
Qed.

Lemma sin_sqr_range (x : R) : 0 <= (sin x)² <= 1.
Proof.
  pose proof (sin2_cos2 x) as Hsc.
  pose proof (Rle_0_sqr (sin x)).
  pose proof (Rle_0_sqr (cos x)). lra.
Qed.

(** [cos p cos q <= cos^2 ((q - p) / 2)], written with the sine. *)
Lemma cos_product_bound (p q : R) :
  cos p * cos q <= 1 - (sin ((q - p) / 2))².
Proof.
  set (u := (q - p) / 2). set (v := (q + p) / 2).
  replace p with (v - u) by (unfold u, v; field).
  replace q with (v + u) by (unfold u, v; field).
  rewrite cos_minus, cos_plus.
  pose proof (sin2_cos2 u) as Hu. pose proof (sin2_cos2 v) as Hv.
  unfold Rsqr in *.
  nra.
Qed.

Lemma haversine_a_range (lat1 lon1 lat2 lon2 : R) :
  valid_latitude lat1 -> valid_latitude lat2 ->
  0 <= Reference.haversine_a lat1 lon1 lat2 lon2 <= 1.
Proof.
  intros H1 H2. unfold Reference.haversine_a. cbv zeta.
  pose proof (cos_radians_nonneg H1) as Hc1.
  pose proof (cos_radians_nonneg H2) as Hc2.
  pose proof (cos_product_bound (Rradians lat1) (Rradians lat2)) as Hp.
  rewrite <- radians_sub in Hp.
  pose proof (sin_sqr_range (Rradians (lat2 - lat1) / 2)) as Hs.
  pose proof (sin_sqr_range (Rradians (lon2 - lon1) / 2)) as Ht.
  set (s := (sin (Rradians (lat2 - lat1) / 2))²) in *.
  set (t := (sin (Rradians (lon2 - lon1) / 2))²) in *.
  set (c1 := cos (Rradians lat1)) in *.
  set (c2 := cos (Rradians lat2)) in *.
  assert (0 <= c1 * c2) by nra.
  split; nra.
Qed.

Lemma powerRZ_2 (x : R) : powerRZ x 2 = x².
Proof. unfold Rsqr. simpl. ring. Qed.

Lemma Rsqrt_checked_nonneg (x : R) :
  0 <= x -> Rsqrt_checked x = Some (sqrt x).
Proof.
  intros Hx. unfold Rsqrt_checked.
  destruct (Rlt_dec x 0); [lra | reflexivity].
Qed.

Lemma haversine_distance_exact (lat1 lon1 lat2 lon2 : R) :
  valid_latitude lat1 -> valid_longitude lon1 ->
  valid_latitude lat2 -> valid_longitude lon2 ->
  haversine_distance lat1 lon1 lat2 lon2 =
  (formula_calls lat1 lon1 lat2 lon2, inr (Reference.haversine lat1 lon1 lat2 lon2)).
Proof.
  intros Hlat1 Hlon1 Hlat2 Hlon2. unfold haversine_distance.
  rewrite (proj2 (between_latitude lat1) Hlat1).
  rewrite (proj2 (between_latitude lat2) Hlat2).
  rewrite (proj2 (between_longitude lon1) Hlon1).
  rewrite (proj2 (between_longitude lon2) Hlon2).
  cbn [negb orb].
  destruct (haversine_a_range lon1 lon2 Hlat1 Hlat2) as [Ha0 Ha1].
  cbv [math_radians math_sin math_cos math_sqrt math_atan2 call tell bind ret
       raise fst snd app lib_radians lib_sin lib_cos lib_sqrt lib_atan2 exact
       of_int fadd fsub fmul fdiv fpow].
  rewrite !powerRZ_2.
  change (_² + _ * _ * _²) with (Reference.haversine_a lat1 lon1 lat2 lon2).
  rewrite !Rsqrt_checked_nonneg by lra.
  reflexivity.
Qed.

(** On the exact instance the formula is the reference definition and
    always has a value. *)
Lemma formula_exact (lat1 lon1 lat2 lon2 : R) :
  valid_latitude lat1 -> valid_latitude lat2 ->
  formula lat1 lon1 lat2 lon2 = Some (Reference.haversine lat1 lon1 lat2 lon2).
Proof.
  intros Hlat1 Hlat2.
  destruct (haversine_a_range lon1 lon2 Hlat1 Hlat2) as [Ha0 Ha1].
  cbv [formula lib_radians lib_sin lib_cos lib_sqrt lib_atan2 exact of_int
       fadd fsub fmul fdiv fpow].
  rewrite !powerRZ_2.
  change (_² + _ * _ * _²) with (Reference.haversine_a lat1 lon1 lat2 lon2).
  rewrite !Rsqrt_checked_nonneg by lra.
  reflexivity.
Qed.

Lemma Ratan2_quadrant (y x : R) :
  0 <= y -> 0 <= x -> 0 <= Ratan2 y x <= PI / 2.
Proof.
  intros Hy Hx. unfold Ratan2. pose proof PI_RGT_0 as Hpi.
  destruct (Rlt_dec 0 x) as [Hpos | Hnpos].
  - assert (Hq : 0 <= y / x).
    { unfold Rdiv. apply Rmult_le_pos; [assumption|].
      left. apply Rinv_0_lt_compat. assumption. }
    pose proof (atan_bound (y / x)) as [_ Hub].
    split; [|lra].
    destruct Hq as [Hq | Hq].
    + pose proof (atan_increasing _ _ Hq) as Hinc. rewrite atan_0 in Hinc. lra.
    + rewrite <- Hq, atan_0. lra.
  - destruct (Rlt_dec x 0); [lra|].
    destruct (Rlt_dec 0 y); [lra|].
    destruct (Rlt_dec y 0); lra.
Qed.

Lemma haversine_c_range (lat1 lon1 lat2 lon2 : R) :
  0 <= Reference.haversine_c lat1 lon1 lat2 lon2 <= PI.
Proof.
  unfold Reference.haversine_c. cbv zeta.
  pose proof (Ratan2_quadrant
    (sqrt_pos (Reference.haversine_a lat1 lon1 lat2 lon2))
    (sqrt_pos (1 - Reference.haversine_a lat1 lon1 lat2 lon2))).
  lra.
Qed.

Lemma haversine_range (lat1 lon1 lat2 lon2 : R) :
  0 <= Reference.haversine lat1 lon1 lat2 lon2 <= PI * 6371.
Proof.
  unfold Reference.haversine, Reference.earth_radius.
  pose proof (haversine_c_range lat1 lon1 lat2 lon2). lra.
Qed.

Lemma haversine_a_sym (lat1 lon1 lat2 lon2 : R) :
  Reference.haversine_a lat1 lon1 lat2 lon2 =
  Reference.haversine_a lat2 lon2 lat1 lon1.
Proof.
  unfold Reference.haversine_a. cbv zeta.
  replace (Rradians (lat1 - lat2) / 2) with (- (Rradians (lat2 - lat1) / 2))
    by (unfold Rradians; field).
  replace (Rradians (lon1 - lon2) / 2) with (- (Rradians (lon2 - lon1) / 2))
    by (unfold Rradians; field).
  rewrite !sin_neg, <- !Rsqr_neg. ring.
Qed.

Lemma haversine_sym (lat1 lon1 lat2 lon2 : R) :
  Reference.haversine lat1 lon1 lat2 lon2 =
  Reference.haversine lat2 lon2 lat1 lon1.
Proof.
  unfold Reference.haversine, Reference.haversine_c. cbv zeta.
  rewrite (haversine_a_sym lat1 lon1 lat2 lon2). reflexivity.
Qed.

Lemma haversine_a_same (lat lon : R) : Reference.haversine_a lat lon lat lon = 0.
Proof.
  unfold Reference.haversine_a. cbv zeta.
  replace (Rradians (lat - lat) / 2) with 0 by (unfold Rradians; field).
  replace (Rradians (lon - lon) / 2) with 0 by (unfold Rradians; field).
  rewrite sin_0. unfold Rsqr. ring.
Qed.

Lemma Ratan2_0_1 : Ratan2 0 1 = 0.
Proof.
  unfold Ratan2. destruct (Rlt_dec 0 1); [|lra].
  replace (0 / 1) with 0 by field. apply atan_0.
Qed.

Lemma haversine_same (lat lon : R) : Reference.haversine lat lon lat lon = 0.
Proof.
  unfold Reference.haversine, Reference.haversine_c. cbv zeta.
  rewrite haversine_a_same, Rminus_0_r, sqrt_0, sqrt_1, Ratan2_0_1. ring.
Qed.


Lemma between_exact_out (lo hi : Z) (x : R) :
  x < IZR lo \/ IZR hi < x -> between lo x hi = false.
Proof.
  intros Hout. destruct (between lo x hi) eqn:Hb; [|reflexivity].
  apply between_exact in Hb. lra.
Qed.

Lemma accepted_exact (lat lon distance_km : R) :
  valid_latitude lat -> valid_longitude lon -> 0 < distance_km ->
  accepted lat lon distance_km.
Proof.
  intros Hlat Hlon Hrad. unfold accepted.
  rewrite (proj2 (between_latitude lat) Hlat).
  rewrite (proj2 (between_longitude lon) Hlon).
  repeat split. apply Rleb_false. exact Hrad.
Qed.

Lemma within_exact (lat lon distance_km : R) (addr : AddressModel R) :
  valid_latitude lat -> valid_longitude lon -> valid_row addr ->
  within lat lon distance_km addr = Rleb (distance_to lat lon addr) distance_km.
Proof.
  intros Hlat Hlon [Hrlat Hrlon]. unfold within.
  rewrite (haversine_distance_exact Hlat Hlon Hrlat Hrlon). reflexivity.
Qed.

(** *** The sample points *)

Lemma valid_latitude_0 : valid_latitude 0.
Proof. unfold valid_latitude. lra. Qed.

Lemma valid_longitude_0 : valid_longitude 0.
Proof. unfold valid_longitude. lra. Qed.

(** ** The claims *)

Section Claims.

Context {F : Type} {arith : PyFloat F}.

(** C3. With a center and radius that pass validation, a row whose
    distance computation raises is left out of the result, the scan
    goes on, and the rows found are those found without that row. *)
Theorem failing_candidate_is_skipped
    (lat lon distance_km : F) (before after : list (AddressModel F))
    (bad : AddressModel F) (e : exn) :
  accepted lat lon distance_km ->
  result (haversine_distance lat lon (latitude bad) (longitude bad)) = inl e ->
  exists found,
    result (get_addresses_within_distance lat lon distance_km
              (before ++ bad :: after)) = inr found /\
    ~ In bad found /\
    result (get_addresses_within_distance lat lon distance_km
              (before ++ after)) = inr found.
Proof.
  intros Hacc Hbad.
  assert (Hout : within lat lon distance_km bad = false).
  { unfold within. rewrite Hbad. reflexivity. }
  exists (filter (within lat lon distance_km) (before ++ after)).
  rewrite !(endpoint_result _ Hacc), !filter_app. cbn [filter].
  rewrite Hout, <- filter_app. repeat split.
  intros Hin. apply filter_In in Hin. destruct Hin as [_ Hin]. congruence.
Qed.

(** C4, amended. When a latitude or a longitude is out of its domain,
    the function raises an [InvalidCoordinate] error before any call
    into [math] is made; the error is the latitude error when a
    latitude is out of range and the longitude error otherwise, so it
    tells the kind of coordinate and the admissible interval, not which
    of the two values or which bound. *)
Theorem invalid_coordinate_rejected (lat1 lon1 lat2 lon2 : F) :
  between (-90) lat1 90 = false \/ between (-90) lat2 90 = false \/
    between (-180) lon1 180 = false \/ between (-180) lon2 180 = false ->
  exists e,
    haversine_distance lat1 lon1 lat2 lon2 = ([], inl e) /\
    InvalidCoordinate e /\
    e = if between (-90) lat1 90 && between (-90) lat2 90
        then longitude_error else latitude_error.
Proof.
  intros Hout.
  destruct (between (-90) lat1 90 && between (-90) lat2 90) eqn:Hlat.
  - apply andb_true_iff in Hlat. destruct Hlat as [Hlat1 Hlat2].
    exists longitude_error. split; [|split; [right; left|]; reflexivity].
    apply haversine_longitude_rejected; trivial.
    rewrite Hlat1, Hlat2 in Hout.
    destruct Hout as [Hout | [Hout | Hout]]; try discriminate. exact Hout.
  - apply andb_false_iff in Hlat.
    exists latitude_error. split; [|split; [left|]; reflexivity].
    apply haversine_latitude_rejected. exact Hlat.
Qed.

(** C5. A center out of its domain makes the validation fail with an
    [InvalidCoordinate] error (the latitude error, else the longitude
    error), and a radius [<= 0] with a center in its domain makes it
    fail with the [InvalidRadius] error.  This holds whatever the rows:
    the operation stops before the store is queried or any row is
    examined, since no call at all is made.  The endpoint hands the
    failure to the transport layer as [HTTPException 500]. *)
Theorem invalid_query_fails_fast
    (lat lon distance_km : F) (db : list (AddressModel F)) :
  between (-90) lat 90 = false \/ between (-180) lon 180 = false \/
    fle distance_km (of_int 0) = true ->
  exists e,
    search lat lon distance_km db = ([], inl e) /\
    e = (if negb (between (-90) lat 90) then center_latitude_error
         else if negb (between (-180) lon 180) then center_longitude_error
         else radius_error) /\
    (if between (-90) lat 90 && between (-180) lon 180
     then InvalidRadius e else InvalidCoordinate e) /\
    get_addresses_within_distance lat lon distance_km db =
      ([], inl search_failed).
Proof.
  intros Hbad. unfold get_addresses_within_distance, search.
  destruct (between (-90) lat 90); cbn [negb andb].
  - destruct (between (-180) lon 180); cbn [negb andb].
    + destruct Hbad as [Hbad | [Hbad | Hbad]]; try discriminate.
      rewrite Hbad. exists radius_error. repeat split.
    + exists center_longitude_error. repeat split.
      right; right; right. reflexivity.
  - exists center_latitude_error. repeat split.
    right; right; left. reflexivity.
Qed.

(** C10. When a latitude and a longitude are both out of range, the
    error raised is the latitude error: the latitudes are tested
    first. *)
Theorem latitude_error_takes_precedence (lat1 lon1 lat2 lon2 : F) :
  between (-90) lat1 90 = false \/ between (-90) lat2 90 = false ->
  between (-180) lon1 180 = false \/ between (-180) lon2 180 = false ->
  haversine_distance lat1 lon1 lat2 lon2 = ([], inl latitude_error).
Proof.
  intros Hlat _. apply haversine_latitude_rejected. exact Hlat.
Qed.

End Claims.

(** C7. The distance from a point to itself is zero, hence within
    1e-4 km of zero. *)
Theorem haversine_distance_same_point (lat lon : R) :
  valid_latitude lat -> valid_longitude lon ->
  exists d,
    result (haversine_distance lat lon lat lon) = inr d /\
    d = 0 /\ Rabs (d - 0) < 1 / 10000.
Proof.
  intros Hlat Hlon. exists 0.
  rewrite (haversine_distance_exact Hlat Hlon Hlat Hlon), haversine_same.
  repeat split. rewrite Rminus_0_r, Rabs_R0. lra.
Qed.

(** In exact arithmetic both arguments of [math.sqrt] are in range and
    the function returns on every input in its domain. *)
Lemma sqrt_arguments_in_range_exact (lat1 lon1 lat2 lon2 : R) :
  valid_latitude lat1 -> valid_longitude lon1 ->
  valid_latitude lat2 -> valid_longitude lon2 ->
  let a := Reference.haversine_a lat1 lon1 lat2 lon2 in
  0 <= a <= 1 /\
  In (MathCall Sqrt [a]) (trace (haversine_distance lat1 lon1 lat2 lon2)) /\
  In (MathCall Sqrt [1 - a]) (trace (haversine_distance lat1 lon1 lat2 lon2)) /\
  exists d, result (haversine_distance lat1 lon1 lat2 lon2) = inr d.
Proof.
  intros Hlat1 Hlon1 Hlat2 Hlon2 a.
  rewrite (haversine_distance_exact Hlat1 Hlon1 Hlat2 Hlon2).
  split; [apply haversine_a_range; assumption|].
  unfold formula_calls, trace. cbn [fst In]. fold a.
  split; [|split].
  - do 8 right. left. reflexivity.
  - do 9 right. left. reflexivity.
  - eexists. reflexivity.
Qed.

(** *** Values of binary64 numbers and Taylor bounds *)

Lemma INR_fact_S (n : nat) (r : R) :
  INR (fact n) = r -> INR (fact (S n)) = IZR (Z.of_nat (S n)) * r.
Proof.
  intros <-. rewrite fact_simpl, mult_INR, INR_IZR_INZ. reflexivity.
Qed.

Lemma INR_fact_0 : INR (fact 0) = 1.
Proof. reflexivity. Qed.

(** Prove [INR (fact n) = ?r] for a closed [n], without computing the
    factorial in [nat]. *)
Ltac fact_value n :=
  lazymatch n with
  | O => exact INR_fact_0
  | S ?m =>
      let H := fresh in
      eassert (H : INR (fact m) = _) by (fact_value m);
      let H' := fresh in
      pose proof (@INR_fact_S _ _ H) as H';
      cbn [Z.of_nat Pos.of_succ_nat Pos.succ] in H';
      exact H'
  end.

Ltac fact_values_in H :=
  repeat match type of H with
  | context [INR (fact ?n)] =>
      let E := fresh in
      eassert (E : INR (fact n) = _) by (fact_value n);
      rewrite E in H; clear E
  end.

(** Replace every [B2R] of a closed float by its value. *)
Ltac float_values :=
  repeat match goal with
  | |- context [Binary64.B2R ?f] =>
      let v := eval vm_compute in (Prim2SF f) in
      change (Binary64.B2R f) with (Binary64.SF2R v)
  end;
  cbn [Binary64.SF2R powerRZ];
  repeat match goal with
  | |- context [Pos.to_nat ?p] =>
      let n := eval compute in (Pos.to_nat p) in
      change (Pos.to_nat p) with n
  end.

(** Bounds of [sin x] or [cos x] by Taylor sums, as hypotheses [Hlo]
    and [Hhi] with the factorials evaluated. *)
Ltac taylor_bounds lemma x n Hlo Hhi :=
  destruct (lemma x n) as [Hlo Hhi]; [unfold x; lra | unfold x; lra |];
  unfold sin_approx, sin_term, cos_approx, cos_term in Hlo, Hhi;
  cbn [sum_f_R0 Nat.mul Nat.add] in Hlo, Hhi;
  fact_values_in Hlo; fact_values_in Hhi.

Section Binary64Run.

Import Binary64.

Lemma sin_eight_degrees : rounds_to (sin (B2R (- eight_degrees))) (- sin_8).
Proof.
  unfold rounds_to. float_values.
  match goal with |- context [sin (-1 * ?m * ?d)] =>
    set (x := 1 * m * d); replace (-1 * m * d) with (- x) by (unfold x; ring)
  end.
  rewrite sin_neg.
  taylor_bounds pre_sin_bound x 2%nat Hlo Hhi.
  unfold x in *. split; lra.
Qed.

Lemma cos_eight_degrees : rounds_to (cos (B2R eight_degrees)) cos_8.
Proof.
  unfold rounds_to. float_values.
  match goal with |- context [cos ?v] => set (x := v) end.
  taylor_bounds pre_cos_bound x 2%nat Hlo Hhi.
  unfold x in *. split; lra.
Qed.

Lemma cos_minus_eight_degrees : rounds_to (cos (B2R (- eight_degrees))) cos_8.
Proof.
  unfold rounds_to. float_values.
  match goal with |- context [cos ?v] => set (x := v) end.
  taylor_bounds pre_cos_bound x 2%nat Hlo Hhi.
  unfold x in *. split; lra.
Qed.

Lemma sin_ninety_degrees : rounds_to (sin (B2R ninety_degrees)) 1.
Proof.
  unfold rounds_to. float_values.
  match goal with |- context [sin ?v] => set (x := v) end.
  taylor_bounds pre_sin_bound x 5%nat Hlo Hhi.
  pose proof (SIN_bound x) as [_ Hle].
  unfold x in *. split; lra.
Qed.

(** The values that [returns_nearest] lists are, for each call, the
    exact value rounded to nearest. *)
Lemma returned_values_are_nearest :
  rounds_to (sin (B2R (- eight_degrees))) (- sin_8) /\
  rounds_to (cos (B2R eight_degrees)) cos_8 /\
  rounds_to (cos (B2R (- eight_degrees))) cos_8 /\
  rounds_to (sin (B2R ninety_degrees)) 1 /\
  rounds_to (B2R (- sin_8) ^ 2) sin_8_squared /\
  rounds_to (B2R 1 ^ 2) 1.
Proof.
  split; [exact sin_eight_degrees|].
  split; [exact cos_eight_degrees|].
  split; [exact cos_minus_eight_degrees|].
  split; [exact sin_ninety_degrees|].
  split; unfold rounds_to; float_values; split; lra.
Qed.

Local Open Scope float_scope.

(** The exact sum of the two rounded terms of [a] lies above the
    midpoint of 1 and the next binary64 number, so the addition rounds
    up to [1 + 2^-52]. *)
Lemma sum_rounds_above_one :
  rounds_to (B2R sin_8_squared + B2R (cos_8 * cos_8 * 1)%float)
    0x1.0000000000001p+0%float.
Proof. unfold rounds_to. float_values. split; lra. Qed.

(** The run of the function on the antipodal pair (8, 0), (-8, 180):
    the sum [a] rounds to [1 + 2^-52], [1 - a] is [-2^-52] and the
    second [math.sqrt] raises. *)
Lemma binary64_antipodal_run (libm : Libm) :
  returns_nearest libm ->
  haversine_distance (arith := binary64 libm) 8 0 (-8) 180 =
    ([ MathCall Radians [-16];
       MathCall Radians [180];
       MathCall Sin [- eight_degrees];
       MathCall Radians [8];
       MathCall Cos [eight_degrees];
       MathCall Radians [-8];
       MathCall Cos [- eight_degrees];
       MathCall Sin [ninety_degrees];
       MathCall Sqrt [0x1.0000000000001p+0];
       MathCall Sqrt [-0x1p-52] ],
     inl domain_error).
Proof.
  intros (Hs1 & Hc1 & Hc2 & Hs2 & Hp1 & Hp2).
  destruct libm as [sin cos atan2 pow]. cbv in Hs1, Hc1, Hc2, Hs2, Hp1, Hp2.
  cbv. rewrite Hs1, Hc1, Hc2, Hs2.
  cbv. rewrite Hp1, Hp2.
  cbv. reflexivity.
Qed.

(** The pair passes both range checks. *)
Lemma antipodal_pair_in_domain (libm : Libm) :
  between (arith := binary64 libm) (-90) 8 90 = true /\
  between (arith := binary64 libm) (-90) (-8) 90 = true /\
  between (arith := binary64 libm) (-180) 0 180 = true /\
  between (arith := binary64 libm) (-180) 180 180 = true.
Proof. repeat split. Qed.

(** C9 fails in binary64.  The antipodal pair (8, 0), (-8, 180) is in
    the domain, yet with a C library that returns the nearest binary64
    numbers the value [a] passed to the first [math.sqrt] is
    [1 + 2^-52 > 1], the value [1 - a] passed to the second is
    negative, and the function raises the domain error. *)
Theorem binary64_antipodal_raises (libm : Libm) :
  returns_nearest libm ->
  let run := haversine_distance (arith := binary64 libm) 8 0 (-8) 180 in
  (between (arith := binary64 libm) (-90) 8 90 = true /\
   between (arith := binary64 libm) (-90) (-8) 90 = true /\
   between (arith := binary64 libm) (-180) 0 180 = true /\
   between (arith := binary64 libm) (-180) 180 180 = true) /\
  In (MathCall Sqrt [0x1.0000000000001p+0]) (trace run) /\
  In (MathCall Sqrt [-0x1p-52]) (trace run) /\
  (1 <? 0x1.0000000000001p+0) = true /\
  (-0x1p-52 <? 0) = true /\
  result run = inl domain_error.
Proof.
  intros Hlibm run. unfold run.
  rewrite (binary64_antipodal_run Hlibm). unfold trace, result. cbn [fst snd In].
  split; [exact (antipodal_pair_in_domain libm)|].
  split; [do 8 right; left; reflexivity|].
  split; [do 9 right; left; reflexivity|].
  repeat split.
Qed.

Lemma table_returns_nearest : returns_nearest table.
Proof. cbv. repeat split. Qed.

Lemma binary64_antipodal_raises_witness :
  returns_nearest table /\
  result (haversine_distance (arith := binary64 table) 8 0 (-8) 180) =
    inl domain_error.
Proof.
  split; [exact table_returns_nearest|].
  apply (binary64_antipodal_raises table_returns_nearest).
Defined.

(** Through the endpoint the same pair loses the row: its distance is
    not computed, so it is found within no radius. *)
Lemma binary64_antipode_not_found (libm : Libm) (distance_km : float) :
  returns_nearest libm ->
  (distance_km <=? 0) = false ->
  result (get_addresses_within_distance (arith := binary64 libm)
            8 0 distance_km [antipode]) = inr [].
Proof.
  intros Hlibm Hradius.
  rewrite endpoint_result by (repeat split; exact Hradius).
  cbn [filter]. unfold within. cbn [latitude longitude antipode].
  rewrite (binary64_antipodal_run Hlibm). reflexivity.
Qed.

(** The reference definition at the antipodal pair: the two points are
    half a circumference apart. *)
Lemma antipodal_reference :
  (Reference.haversine 8 0 (-8) 180 = 6371 * PI)%R.
Proof.
  unfold Reference.haversine, Reference.haversine_c, Reference.haversine_a,
    Reference.earth_radius. cbv zeta.
  replace (Rradians (-8 - 8) / 2)%R with (- Rradians 8)%R
    by (unfold Rradians; field).
  replace (Rradians (180 - 0) / 2)%R with (PI / 2)%R
    by (unfold Rradians; field).
  replace (Rradians (-8)) with (- Rradians 8)%R by (unfold Rradians; field).
  rewrite sin_neg, cos_neg, sin_PI2, <- Rsqr_neg.
  replace ((sin (Rradians 8))² + cos (Rradians 8) * cos (Rradians 8) * 1²)%R
    with 1%R
    by (pose proof (sin2_cos2 (Rradians 8)) as Hone; unfold Rsqr in *; nra).
  replace (1 - 1)%R with 0%R by ring.
  rewrite sqrt_1, sqrt_0. unfold Ratan2.
  destruct (Rlt_dec 0 0); [lra|]. destruct (Rlt_dec 0 1); [|lra]. field.
Qed.

Lemma antipodal_pair_valid :
  valid_latitude 8 /\ valid_longitude 0 /\
  valid_latitude (-8) /\ valid_longitude 180.
Proof. unfold valid_latitude, valid_longitude. repeat split; lra. Qed.

(** The four binary64 inputs are the numbers 8, 0, -8 and 180. *)
Lemma antipodal_pair_values :
  B2R 8 = 8%R /\ B2R 0 = 0%R /\ B2R (-8) = (-8)%R /\ B2R 180 = 180%R.
Proof. repeat split; float_values; lra. Qed.

(** C1 fails in binary64, by the defect of C9.  The pair (8, 0),
    (-8, 180) is in the domain and the reference definition gives
    [6371 * PI] km for it, half the circumference; the function returns
    no value there: it raises the domain error. *)
Theorem binary64_antipodal_is_not_reference (libm : Libm) :
  returns_nearest libm ->
  (valid_latitude 8 /\ valid_longitude 0 /\
   valid_latitude (-8) /\ valid_longitude 180) /\
  (B2R 8 = 8%R /\ B2R 0 = 0%R /\ B2R (-8) = (-8)%R /\ B2R 180 = 180%R) /\
  (Reference.haversine 8 0 (-8) 180 = 6371 * PI)%R /\
  result (haversine_distance (arith := binary64 libm) 8 0 (-8) 180) =
    inl domain_error /\
  forall d,
    result (haversine_distance (arith := binary64 libm) 8 0 (-8) 180) <> inr d.
Proof.
  intros Hlibm.
  split; [exact antipodal_pair_valid|].
  split; [exact antipodal_pair_values|].
  split; [exact antipodal_reference|].
  rewrite (binary64_antipodal_run Hlibm). unfold result. cbn [snd].
  split; [reflexivity | discriminate].
Qed.

Lemma binary64_antipodal_is_not_reference_witness :
  returns_nearest table /\
  forall d,
    result (haversine_distance (arith := binary64 table) 8 0 (-8) 180) <> inr d.
Proof.
  split; [exact table_returns_nearest|].
  apply (binary64_antipodal_is_not_reference table_returns_nearest).
Defined.

(** C2 fails in binary64, by the defect of C9.  The center (8, 0) is
    valid, the radius 30000 km is positive and the stored row at
    (-8, 180) is in the domain, at a great-circle distance of
    [6371 * PI <= 30000] km from the center; the endpoint returns the
    empty list: the row is skipped because its distance computation
    raises. *)
Theorem binary64_radius_filter_loses_antipode (libm : Libm) :
  returns_nearest libm ->
  (valid_latitude 8 /\ valid_longitude 0 /\
   valid_latitude (-8) /\ valid_longitude 180) /\
  (B2R 8 = 8%R /\ B2R 0 = 0%R /\ B2R (-8) = (-8)%R /\ B2R 180 = 180%R) /\
  (B2R 30000 = 30000 /\ 0 < 30000 /\
   Reference.haversine 8 0 (-8) 180 <= 30000)%R /\
  result (get_addresses_within_distance (arith := binary64 libm)
            8 0 30000 [antipode]) = inr [].
Proof.
  intros Hlibm.
  split; [exact antipodal_pair_valid|].
  split; [exact antipodal_pair_values|].
  split.
  - rewrite antipodal_reference. pose proof PI_4.
    repeat split; try lra. float_values. lra.
  - apply (binary64_antipode_not_found (distance_km := 30000) Hlibm).
    reflexivity.
Qed.

Lemma binary64_radius_filter_loses_antipode_witness :
  returns_nearest table /\
  result (get_addresses_within_distance (arith := binary64 table)
            8 0 30000 [antipode]) = inr [].
Proof.
  split; [exact table_returns_nearest|].
  apply (binary64_radius_filter_loses_antipode table_returns_nearest).
Defined.

End Binary64Run.

(** ** Binary64: the order and the signs of rounded results *)

Section Rounding.

Import Round64.

Local Unset Implicit Arguments.

Local Open Scope Z_scope.

(** *** Rounding to nearest even, on integers *)








(** *** The shift of a mantissa *)





(** *** The rounding of a mantissa *)
















































(** *** Binary64 numbers *)

Local Open Scope float_scope.



Lemma float_mul_comm (x y : float) : x * y = y * x.
Proof.
  apply Prim2SF_inj. rewrite !FloatAxioms.mul_spec. unfold SF64mul.
  destruct (Prim2SF x) as [sx | sx | | sx mx ex],
           (Prim2SF y) as [sy | sy | | sy my ey];
    cbn [SFmul]; try reflexivity; try (rewrite xorb_comm; reflexivity).
  rewrite xorb_comm, Pos.mul_comm, Z.add_comm. reflexivity.
Qed.








(** *** Opposite numbers *)

Local Open Scope Z_scope.

Lemma binary_round_aux_opp (s : bool) (m e : Z) (l : location) :
  round64 (negb s) m e l =
  SFopp (round64 s m e l).
Proof.
  unfold binary_round_aux.
  destruct (shr_fexp FloatOps.prec FloatOps.emax m e l) as [mrs' e'].
  destruct (shr_fexp FloatOps.prec FloatOps.emax _ e' loc_Exact) as [mrs'' e''].
  destruct (shr_m mrs''); [reflexivity | | reflexivity].
  destruct (e'' <=? FloatOps.emax - FloatOps.prec); reflexivity.
Qed.

Lemma binary_round_opp (s : bool) (m : positive) (e : Z) :
  binary_round FloatOps.prec FloatOps.emax (negb s) m e = SFopp (binary_round FloatOps.prec FloatOps.emax s m e).
Proof.
  unfold binary_round. destruct (shl_align _ _ _) as [mz ez].
  apply binary_round_aux_opp.
Qed.

Lemma binary_normalize_opp (m e : Z) :
  m <> 0 ->
  binary_normalize FloatOps.prec FloatOps.emax (- m) e false =
  SFopp (binary_normalize FloatOps.prec FloatOps.emax m e false).
Proof.
  destruct m as [| p | p]; [congruence | |]; intros _; cbn [Z.opp binary_normalize].
  - apply (binary_round_opp false).
  - rewrite (binary_round_opp false).
    destruct (binary_round _ _ _ _ _) as [[] | [] | | [] ? ?]; reflexivity.
Qed.

Lemma SFmul_opp_l (x y : spec_float) :
  SFmul64 (SFopp x) y = SFopp (SFmul64 x y).
Proof.
  destruct x as [sx | sx | | sx mx ex], y as [sy | sy | | sy my ey];
    cbn [SFmul SFopp]; try reflexivity;
    try (destruct sx, sy; reflexivity).
  rewrite <- binary_round_aux_opp. destruct sx, sy; reflexivity.
Qed.

Lemma SFmul_comm (x y : spec_float) :
  SFmul64 x y = SFmul64 y x.
Proof.
  destruct x as [sx | sx | | sx mx ex], y as [sy | sy | | sy my ey];
    cbn [SFmul]; try reflexivity; try (rewrite xorb_comm; reflexivity).
  rewrite xorb_comm, Pos.mul_comm, Z.add_comm. reflexivity.
Qed.

Lemma SFdiv_opp_l (x y : spec_float) :
  SFdiv64 (SFopp x) y = SFopp (SFdiv64 x y).
Proof.
  destruct x as [sx | sx | | sx mx ex], y as [sy | sy | | sy my ey];
    cbn [SFdiv SFopp]; try reflexivity;
    try (destruct sx, sy; reflexivity).
  destruct (SFdiv_core_binary _ _ _ _ _ _) as [[mz ez] lz].
  rewrite <- binary_round_aux_opp. destruct sx, sy; reflexivity.
Qed.

(** A difference and the opposite difference are opposite numbers, or
    the same zero or NaN. *)
Lemma SFsub_swap (x y : spec_float) :
  SFsub64 x y = SFopp (SFsub64 y x) \/
  SFsub64 x y = SFsub64 y x.
Proof.
  destruct x as [sx | sx | | sx mx ex], y as [sy | sy | | sy my ey];
    cbn [SFsub SFopp]; auto;
    try (destruct sx, sy; cbn; auto; fail);
    try (destruct sx; cbn; auto; fail);
    try (destruct sy; cbn; auto; fail).
  rewrite (Z.min_comm ey ex).
  set (ez := Z.min ex ey).
  set (a := cond_Zopp sx _). set (b := cond_Zopp sy _).
  destruct (Z.eq_dec (b - a) 0) as [Hz | Hnz].
  - right. replace (a - b) with 0 by lia. rewrite Hz. reflexivity.
  - left. replace (a - b) with (- (b - a)) by lia.
    apply binary_normalize_opp. exact Hnz.
Qed.

End Rounding.

(** ** Symmetry, for an arithmetic with a commutative product *)

Section Symmetry.

Context {F : Type} {arith : PyFloat F}.

Local Unset Implicit Arguments.

Hypothesis fmul_comm : forall x y : F, fmul x y = fmul y x.

Hypothesis term_swap :
  forall x y : F, haversine_term (fsub x y) = haversine_term (fsub y x).

Lemma formula_swap (lat1 lon1 lat2 lon2 : F) :
  formula lat1 lon1 lat2 lon2 = formula lat2 lon2 lat1 lon1.
Proof.
  pose proof (term_swap lat2 lat1) as Hlat.
  pose proof (term_swap lon2 lon1) as Hlon.
  unfold haversine_term in Hlat, Hlon. unfold formula. cbv zeta.
  destruct (lib_sin (fdiv (lib_radians (fsub lat2 lat1)) (of_int 2))) as [s|],
           (lib_sin (fdiv (lib_radians (fsub lat1 lat2)) (of_int 2))) as [s'|];
    cbn [option_map] in Hlat; try discriminate;
    destruct (lib_cos (lib_radians lat1)) as [c1|],
             (lib_cos (lib_radians lat2)) as [c2|]; try reflexivity.
  destruct (lib_sin (fdiv (lib_radians (fsub lon2 lon1)) (of_int 2))) as [t|],
           (lib_sin (fdiv (lib_radians (fsub lon1 lon2)) (of_int 2))) as [t'|];
    cbn [option_map] in Hlon; try discriminate; try reflexivity.
  injection Hlat as Hlat. injection Hlon as Hlon.
  rewrite Hlat, Hlon, (fmul_comm c2 c1). reflexivity.
Qed.

Lemma haversine_distance_swap (lat1 lon1 lat2 lon2 : F) :
  result (haversine_distance lat1 lon1 lat2 lon2) =
  result (haversine_distance lat2 lon2 lat1 lon1).
Proof.
  destruct (between (-90) lat1 90) eqn:Hlat1.
  2:{ rewrite !haversine_latitude_rejected by auto. reflexivity. }
  destruct (between (-90) lat2 90) eqn:Hlat2.
  2:{ rewrite !haversine_latitude_rejected by auto. reflexivity. }
  destruct (between (-180) lon1 180) eqn:Hlon1.
  2:{ rewrite !haversine_longitude_rejected by auto. reflexivity. }
  destruct (between (-180) lon2 180) eqn:Hlon2.
  2:{ rewrite !haversine_longitude_rejected by auto. reflexivity. }
  rewrite !haversine_distance_formula by assumption.
  rewrite (formula_swap lat1 lon1 lat2 lon2). reflexivity.
Qed.

End Symmetry.

(** ** The distance in binary64 *)

Section Binary64Distance.

Import Binary64 Round64.

Local Unset Implicit Arguments.

Local Open Scope float_scope.


Lemma float_mul_opp_l (x y : float) : - x * y = - (x * y).
Proof.
  apply Prim2SF_inj.
  rewrite FloatAxioms.opp_spec, !FloatAxioms.mul_spec, FloatAxioms.opp_spec.
  apply SFmul_opp_l.
Qed.

Lemma float_div_opp_l (x y : float) : - x / y = - (x / y).
Proof.
  apply Prim2SF_inj.
  rewrite FloatAxioms.opp_spec, !FloatAxioms.div_spec, FloatAxioms.opp_spec.
  apply SFdiv_opp_l.
Qed.

Lemma float_opp_involutive (x : float) : - - x = x.
Proof.
  apply Prim2SF_inj. rewrite !FloatAxioms.opp_spec.
  destruct (Prim2SF x) as [[] | [] | | [] ? ?]; reflexivity.
Qed.

Lemma float_sub_swap (x y : float) : x - y = - (y - x) \/ x - y = y - x.
Proof.
  destruct (SFsub_swap (Prim2SF x) (Prim2SF y)) as [H | H]; [left | right];
    apply Prim2SF_inj;
    rewrite ?FloatAxioms.opp_spec, !FloatAxioms.sub_spec; exact H.
Qed.

(** *** C6 *)

Lemma binary64_term_opp (libm : Libm) (degrees : float) :
  sine_is_odd libm -> square_is_even libm ->
  haversine_term (arith := binary64 libm) (- degrees) =
  haversine_term (arith := binary64 libm) degrees.
Proof.
  intros Hodd Heven. unfold haversine_term.
  cbn [lib_sin lib_radians fdiv fpow of_int binary64].
  change (float_of_int 2) with 2.
  rewrite float_mul_opp_l, float_div_opp_l, Hodd.
  destruct (libm_sin libm (degrees * degToRad / 2)) as [s|]; [|reflexivity].
  cbn [option_map]. rewrite Heven. reflexivity.
Qed.

Lemma binary64_term_swap (libm : Libm) (x y : float) :
  sine_is_odd libm -> square_is_even libm ->
  haversine_term (arith := binary64 libm) (fsub (PyFloat := binary64 libm) x y) =
  haversine_term (arith := binary64 libm) (fsub (PyFloat := binary64 libm) y x).
Proof.
  intros Hodd Heven. cbn [fsub binary64].
  destruct (float_sub_swap x y) as [H | H]; rewrite H;
    [apply binary64_term_opp; assumption | reflexivity].
Qed.

(** C6. In binary64, with a C library whose sine is odd and whose
    square does not depend on the sign, the function gives the same
    result for a pair of points and for the two points exchanged: the
    same distance, or the same exception. *)
Theorem haversine_distance_symmetric (libm : Libm)
    (lat1 lon1 lat2 lon2 : float) :
  sine_is_odd libm -> square_is_even libm ->
  result (haversine_distance (arith := binary64 libm) lat1 lon1 lat2 lon2) =
  result (haversine_distance (arith := binary64 libm) lat2 lon2 lat1 lon1).
Proof.
  intros Hodd Heven. apply haversine_distance_swap.
  - intros x y. apply float_mul_comm.
  - intros x y. apply binary64_term_swap; assumption.
Qed.

Lemma small_angle_odd : sine_is_odd small_angle.
Proof. intros x. reflexivity. Qed.

Lemma small_angle_even : square_is_even small_angle.
Proof.
  intros x. cbn [libm_pow small_angle].
  rewrite float_mul_opp_l, (float_mul_comm x (- x)), float_mul_opp_l.
  apply float_opp_involutive.
Qed.

Lemma haversine_distance_symmetric_witness :
  result (haversine_distance (arith := binary64 small_angle) 12 77 13 76) =
  result (haversine_distance (arith := binary64 small_angle) 13 76 12 77).
Proof.
  apply (haversine_distance_symmetric small_angle 12 77 13 76
           small_angle_odd small_angle_even).
Defined.


(** *** C8 *)











(** *** The [Float] column in binary64 *)

Lemma positive_zero_le (x y : float) : (positive_zero x <=? y) = (x <=? y).
Proof.
  unfold positive_zero. destruct (x =? 0) eqn:Hzero; [|reflexivity].
  rewrite FloatAxioms.eqb_spec in Hzero. rewrite !FloatAxioms.leb_spec.
  change (Prim2SF 0) with (S754_zero false) in *.
  destruct (Prim2SF x) as [| [] | | [] ? ?]; try discriminate; reflexivity.
Qed.

Lemma positive_zero_ge (x y : float) : (y <=? positive_zero x) = (y <=? x).
Proof.
  unfold positive_zero. destruct (x =? 0) eqn:Hzero; [|reflexivity].
  rewrite FloatAxioms.eqb_spec in Hzero. rewrite !FloatAxioms.leb_spec.
  change (Prim2SF 0) with (S754_zero false) in *.
  destruct (Prim2SF x) as [| [] | | [] ? ?]; try discriminate;
    destruct (Prim2SF y) as [| [] | | [] ? ?]; reflexivity.
Qed.

#[export] Instance binary64_store (libm : Libm)
    : Db.SqliteReal float (arith := binary64 libm) :=
  @Db.Build_SqliteReal float (binary64 libm) positive_zero
    positive_zero_le positive_zero_ge.

(** The column changes the negative zero only. *)
Lemma positive_zero_changes (x : float) :
  positive_zero x <> x <-> x = - 0.
Proof.
  unfold positive_zero. split.
  - destruct (x =? 0) eqn:Hzero; [|congruence]. intros Hne.
    rewrite FloatAxioms.eqb_spec in Hzero.
    change (Prim2SF 0) with (S754_zero false) in Hzero.
    apply Prim2SF_inj. change (Prim2SF (- 0)) with (S754_zero true).
    destruct (Prim2SF x) as [[] | [] | | [] ? ?] eqn:Hx; try discriminate;
      [reflexivity|].
    exfalso. apply Hne. apply Prim2SF_inj. rewrite Hx. reflexivity.
  - intros ->. cbn. intros Heq.
    apply (f_equal Prim2SF) in Heq. discriminate Heq.
Qed.

End Binary64Distance.

(** Scenario 4 of the specification: a longitude of 500 is rejected. *)
Example longitude_500_rejected :
  haversine_distance 12.9 500 12.9 77.5 = ([], inl longitude_error).
Proof.
  apply haversine_longitude_rejected.
  - apply between_exact. lra.
  - apply between_exact. lra.
  - left. apply between_exact_out. right. lra.
Qed.

(** ** Counterexamples *)

Lemma same_error_for_both_latitudes :
  result (haversine_distance 100 0 0 0) = inl latitude_error /\
  result (haversine_distance 0 0 (-100) 0) = inl latitude_error.
Proof.
  split.
  - rewrite (@haversine_latitude_rejected R _ 100 0 0 0); [reflexivity|].
    left. apply between_exact_out. right. lra.
  - rewrite (@haversine_latitude_rejected R _ 0 0 (-100) 0); [reflexivity|].
    right. apply between_exact_out. left. lra.
Qed.

(** C4, as stated, fails: a first latitude of 100 and a second latitude
    of -100 raise the same error, and no value and bound is violated in
    both inputs. *)
Lemma error_does_not_name_violation : ~ error_names_violation.
Proof.
  intros [describe Hnames].
  destruct same_error_for_both_latitudes as [Hup Hlow].
  destruct (Hnames 100 0 0 0) as (e1 & He1 & Hv1).
  { exists Lat1, Upper. simpl. lra. }
  destruct (Hnames 0 0 (-100) 0) as (e2 & He2 & Hv2).
  { exists Lat2, Lower. simpl. lra. }
  rewrite Hup in He1. rewrite Hlow in He2.
  injection He1 as <-. injection He2 as <-.
  destruct (describe latitude_error) as [[] []]; simpl in Hv1, Hv2; lra.
Qed.

(** ** Witnesses *)

Lemma failing_candidate_is_skipped_witness :
  exists found,
    result (get_addresses_within_distance 0 0 10 ([home] ++ broken :: [far])) =
      inr found /\
    ~ In broken found /\
    result (get_addresses_within_distance 0 0 10 ([home] ++ [far])) = inr found.
Proof.
  apply (@failing_candidate_is_skipped R _ 0 0 10 [home] [far] broken
           latitude_error).
  - apply accepted_exact;
      [exact valid_latitude_0 | exact valid_longitude_0 | lra].
  - cbn [latitude longitude broken].
    rewrite (@haversine_latitude_rejected R _ 0 0 100 0); [reflexivity|].
    right. apply between_exact_out. right. lra.
Defined.

(** Scenario 3 of the specification. *)
Lemma invalid_coordinate_rejected_witness :
  exists e,
    haversine_distance 100 77.5 12.9 77.5 = ([], inl e) /\
    InvalidCoordinate e /\
    e = if between (-90) 100 90 && between (-90) 12.9 90
        then longitude_error else latitude_error.
Proof.
  apply invalid_coordinate_rejected.
  left. apply between_exact_out. right. lra.
Defined.

(** Scenario 6 of the specification. *)
Lemma invalid_query_fails_fast_witness :
  exists e,
    search 0 0 (-5) [home; far] = ([], inl e) /\
    e = (if negb (between (-90) 0 90) then center_latitude_error
         else if negb (between (-180) 0 180) then center_longitude_error
         else radius_error) /\
    (if between (-90) 0 90 && between (-180) 0 180
     then InvalidRadius e else InvalidCoordinate e) /\
    get_addresses_within_distance 0 0 (-5) [home; far] =
      ([], inl search_failed).
Proof.
  apply invalid_query_fails_fast.
  right; right. change (Rleb (-5) 0 = true). apply Rleb_true. lra.
Defined.

(** Scenario 1 of the specification. *)
Lemma haversine_distance_same_point_witness :
  exists d,
    result (haversine_distance 12.9716 77.5946 12.9716 77.5946) = inr d /\
    d = 0 /\ Rabs (d - 0) < 1 / 10000.
Proof.
  apply haversine_distance_same_point;
    unfold valid_latitude, valid_longitude; lra.
Defined.

Lemma latitude_error_takes_precedence_witness :
  haversine_distance 100 500 0 0 = ([], inl latitude_error).
Proof.
  apply latitude_error_takes_precedence.
  - left. apply between_exact_out. right. lra.
  - left. apply between_exact_out. right. lra.
Defined.

(** ** The store and crud.py *)

Section CrudFacts.

Import Db.

Context {F : Type} {arith : PyFloat F} {store : SqliteReal F}.

Local Unset Implicit Arguments.

Local Open Scope Z_scope.
Local Open Scope string_scope.

Implicit Types (rows database : list (AddressModel F)) (row : AddressModel F).

Lemma has_id_true (address_id : Z) row :
  has_id address_id row = true <-> id row = address_id.
Proof. unfold has_id. apply Z.eqb_eq. Qed.

Lemma has_id_false (address_id : Z) row :
  has_id address_id row = false <-> id row <> address_id.
Proof. unfold has_id. apply Z.eqb_neq. Qed.

Lemma fold_max_bounds (l : list Z) (a : Z) :
  a <= fold_left Z.max l a /\ forall x, In x l -> x <= fold_left Z.max l a.
Proof.
  revert a. induction l as [| y l IH]; intros a; cbn [fold_left].
  - split; [lia | intros x []].
  - destruct (IH (Z.max a y)) as [Hacc Hall]. split; [lia|].
    intros x [<- | Hin]; [lia | auto].
Qed.

(** The rowid of an inserted row is larger than all those in use. *)
Lemma next_rowid_above rows row :
  In row rows -> id row < next_rowid rows.
Proof.
  destruct rows as [| first rest]; [intros []|].
  intros Hin. unfold next_rowid.
  destruct (fold_max_bounds (map id rest) (id first)) as [Hfirst Hrest].
  destruct Hin as [<- | Hin]; [lia|].
  specialize (Hrest (id row) (in_map id _ _ Hin)). lia.
Qed.

Lemma next_rowid_fresh rows : ~ In (next_rowid rows) (map id rows).
Proof.
  intros Hin. apply in_map_iff in Hin. destruct Hin as (row & Heq & Hin).
  pose proof (next_rowid_above _ _ Hin). lia.
Qed.

Lemma find_missing (address_id : Z) rows :
  find (has_id address_id) rows = None <-> ~ In address_id (map id rows).
Proof.
  induction rows as [| row rows IH]; cbn [find map In]; [tauto|].
  destruct (has_id address_id row) eqn:Hid.
  - apply has_id_true in Hid. split; [discriminate | intros H; exfalso; auto].
  - apply has_id_false in Hid. rewrite IH. tauto.
Qed.

Lemma find_present (address_id : Z) rows :
  In address_id (map id rows) ->
  exists row, find (has_id address_id) rows = Some row /\
              In row rows /\ id row = address_id.
Proof.
  intros Hin. destruct (find (has_id address_id) rows) as [row|] eqn:Hfind.
  - exists row. apply find_some in Hfind. destruct Hfind as [Hrow Hid].
    apply has_id_true in Hid. auto.
  - apply find_missing in Hfind. contradiction.
Qed.

(** Under the primary key a row is found by its [id]. *)
Lemma find_unique rows row :
  unique_ids rows -> In row rows -> find (has_id (id row)) rows = Some row.
Proof.
  unfold unique_ids. induction rows as [| first rows IH]; [intros _ []|].
  cbn [map find]. intros Hnodup Hin. apply NoDup_cons_iff in Hnodup.
  destruct Hnodup as [Hfirst Hnodup].
  destruct Hin as [-> | Hin].
  - rewrite (proj2 (has_id_true (id row) row) eq_refl). reflexivity.
  - destruct (has_id (id row) first) eqn:Hid; [|auto].
    apply has_id_true in Hid. exfalso. apply Hfirst. rewrite Hid.
    apply in_map. exact Hin.
Qed.


Lemma find_app_fresh (address_id : Z) rows row :
  ~ In address_id (map id rows) -> id row = address_id ->
  find (has_id address_id) (rows ++ [row]) = Some row.
Proof.
  intros Hfresh Hid. induction rows as [| first rows IH]; cbn [app find].
  - rewrite (proj2 (has_id_true address_id row) Hid). reflexivity.
  - cbn [map In] in Hfresh.
    rewrite (proj2 (has_id_false address_id first)) by tauto. apply IH. tauto.
Qed.

Lemma find_update (address_id : Z) rows row obj :
  find (has_id address_id) rows = Some row -> id obj = address_id ->
  find (has_id address_id) (update rows obj) = Some (written obj).
Proof.
  intros Hfind Hid. unfold update. rewrite Hid.
  induction rows as [| first rows IH]; cbn [find map] in *; [discriminate|].
  destruct (has_id address_id first) eqn:Hfirst.
  - rewrite (proj2 (has_id_true address_id (written obj)) Hid). reflexivity.
  - rewrite Hfirst. auto.
Qed.

Lemma find_update_other (address_id other : Z) rows obj :
  id obj = address_id -> other <> address_id ->
  find (has_id other) (update rows obj) = find (has_id other) rows.
Proof.
  intros Hid Hother. unfold update. rewrite Hid.
  induction rows as [| first rows IH]; cbn [find map]; [reflexivity|].
  destruct (has_id address_id first) eqn:Hfirst.
  - apply has_id_true in Hfirst.
    rewrite (proj2 (has_id_false other (written obj)))
      by (cbn [written id]; congruence).
    rewrite (proj2 (has_id_false other first)) by congruence. exact IH.
  - destruct (has_id other first); [reflexivity | exact IH].
Qed.

Lemma find_remove (address_id : Z) rows :
  find (has_id address_id) (remove rows address_id) = None.
Proof.
  apply find_missing. intros Hin. apply in_map_iff in Hin.
  destruct Hin as (row & Hid & Hin). unfold remove in Hin.
  apply filter_In in Hin. destruct Hin as [_ Hkeep].
  apply negb_true_iff, has_id_false in Hkeep. contradiction.
Qed.

Lemma find_remove_other (address_id other : Z) rows :
  other <> address_id ->
  find (has_id other) (remove rows address_id) = find (has_id other) rows.
Proof.
  intros Hother. unfold remove.
  induction rows as [| first rows IH]; cbn [find filter]; [reflexivity|].
  destruct (has_id address_id first) eqn:Hfirst; cbn [negb find].
  - apply has_id_true in Hfirst.
    rewrite (proj2 (has_id_false other first)) by congruence. exact IH.
  - destruct (has_id other first); [reflexivity | exact IH].
Qed.

(** *** What each function of crud.py does on a new session *)

Lemma get_address_run (address_id : Z) (db : Session F) :
  get_address address_id db =
  (match find (has_id address_id) (table db) with
   | Some row => inr row
   | None =>
       inl (Py (ValueError ("Error retrieving address: " ++ not_found address_id)))
   end, db).
Proof.
  unfold get_address, try_except, bind, query_first.
  destruct (find (has_id address_id) (table db)); reflexivity.
Qed.

Lemma create_address_run database (address : Schemas.AddressCreate F) :
  create_address address (SessionLocal database) =
  (inr (row_of (next_rowid database) address),
   SessionLocal (database ++ [row_of (next_rowid database) address])).
Proof.
  unfold create_address, try_except, bind, add, commit, flush, SessionLocal.
  cbn [table new dirty deleted fold_left app insert].
  rewrite skipn_app, skipn_all, Nat.sub_diag. cbn [skipn app].
  fold (object_of (next_rowid database) address).
  fold (row_of (next_rowid database) address). cbn [rev app].
  unfold refresh. cbn [table].
  change (id (row_of (next_rowid database) address)) with (next_rowid database).
  rewrite (@find_app_fresh (next_rowid database) database
             (row_of (next_rowid database) address)
             (next_rowid_fresh database) eq_refl).
  reflexivity.
Qed.

Lemma update_address_found (address_id : Z) database row
    (address_update : Schemas.AddressUpdate F) :
  find (has_id address_id) database = Some row ->
  update_address address_id address_update (SessionLocal database) =
  (inr (row_of address_id address_update),
   SessionLocal (update database (object_of address_id address_update))).
Proof.
  intros Hfind.
  assert (Hid : id row = address_id).
  { apply find_some in Hfind. apply has_id_true, Hfind. }
  unfold update_address, try_except, bind. rewrite get_address_run.
  cbn [table SessionLocal]. rewrite Hfind.
  unfold setattr_name, setattr_latitude, setattr_longitude, bind, modified, ret.
  unfold SessionLocal.
  cbn [table new dirty deleted id name latitude longitude filter app].
  repeat match goal with
  | |- context [has_id ?n ?r] =>
      rewrite (proj2 (has_id_true n r) eq_refl); cbn [negb filter app]
  end.
  unfold commit, flush, refresh.
  cbn [table new dirty deleted fold_left id].
  rewrite Hid. fold (object_of address_id address_update).
  change (id (object_of address_id address_update)) with address_id.
  rewrite (@find_update address_id database row
             (object_of address_id address_update) Hfind eq_refl).
  reflexivity.
Qed.

Lemma update_address_missing (address_id : Z) database
    (address_update : Schemas.AddressUpdate F) :
  find (has_id address_id) database = None ->
  update_address address_id address_update (SessionLocal database) =
  (inl (Py (ValueError ("Error updating address: Error retrieving address: "
                          ++ not_found address_id))),
   SessionLocal database).
Proof.
  intros Hfind. unfold update_address, try_except, bind.
  rewrite get_address_run. cbn [table SessionLocal]. rewrite Hfind.
  reflexivity.
Qed.

Lemma delete_address_found (address_id : Z) database row :
  find (has_id address_id) database = Some row ->
  delete_address address_id (SessionLocal database) =
  (inr tt, SessionLocal (remove database address_id)).
Proof.
  intros Hfind.
  assert (Hid : id row = address_id).
  { apply find_some in Hfind. apply has_id_true, Hfind. }
  unfold delete_address, try_except, bind. rewrite get_address_run.
  cbn [table SessionLocal]. rewrite Hfind.
  unfold delete, commit, flush, bind, ret.
  cbn [table new dirty deleted fold_left app]. rewrite Hid. reflexivity.
Qed.

Lemma delete_address_missing (address_id : Z) database :
  find (has_id address_id) database = None ->
  delete_address address_id (SessionLocal database) =
  (inl (Py (ValueError ("Error deleting address: Error retrieving address: "
                          ++ not_found address_id))),
   SessionLocal database).
Proof.
  intros Hfind. unfold delete_address, try_except, bind.
  rewrite get_address_run. cbn [table SessionLocal]. rewrite Hfind.
  reflexivity.
Qed.

End CrudFacts.

(** *** The endpoints of main.py on a database *)

Section Endpoints.

Import Db.

Context {F : Type} {arith : PyFloat F} {store : SqliteReal F}.

Local Unset Implicit Arguments.

Local Open Scope Z_scope.
Local Open Scope string_scope.

Implicit Types (rows database : list (AddressModel F)) (row : AddressModel F).

Lemma read_addr_run (address_id : Z) database :
  get_db (read_addr address_id) database =
  (match find (has_id address_id) database with
   | Some row => inr row
   | None => inl (Py (HTTPException 404 "Address not found"))
   end, database).
Proof.
  unfold get_db, read_addr, try_except, bind. rewrite get_address_run.
  cbn [table SessionLocal].
  destruct (find (has_id address_id) database); reflexivity.
Qed.

Lemma create_addr_run database (address : Schemas.AddressCreate F) :
  get_db (create_addr address) database =
  (inr (row_of (next_rowid database) address),
   (database ++ [row_of (next_rowid database) address])%list).
Proof.
  unfold get_db, create_addr, try_except, bind.
  rewrite create_address_run. reflexivity.
Qed.

Lemma update_addr_run (address_id : Z) database
    (address : Schemas.AddressUpdate F) :
  get_db (update_addr address_id address) database =
  match find (has_id address_id) database with
  | Some _ =>
      (inr (row_of address_id address),
       update database (object_of address_id address))
  | None =>
      (inl (Py (HTTPException 500 "Failed to update address")), database)
  end.
Proof.
  unfold get_db, update_addr, try_except, bind.
  destruct (find (has_id address_id) database) as [row|] eqn:Hfind.
  - erewrite update_address_found by exact Hfind. reflexivity.
  - rewrite update_address_missing by exact Hfind. reflexivity.
Qed.

Lemma delete_addr_run (address_id : Z) database :
  get_db (delete_addr address_id) database =
  match find (has_id address_id) database with
  | Some _ => (inr deleted_response, remove database address_id)
  | None =>
      (inl (Py (HTTPException 500 "Failed to delete address")), database)
  end.
Proof.
  unfold get_db, delete_addr, try_except, bind.
  destruct (find (has_id address_id) database) as [row|] eqn:Hfind.
  - erewrite delete_address_found by exact Hfind. reflexivity.
  - rewrite delete_address_missing by exact Hfind. reflexivity.
Qed.

Lemma read_addrs_run database :
  get_db read_addrs database = (inr database, database).
Proof. reflexivity. Qed.

Lemma ids_of_update rows obj :
  map id (update rows obj) = map id rows.
Proof.
  unfold update. induction rows as [| first rows IH]; cbn [map];
    [reflexivity|].
  rewrite IH. destruct (has_id (id obj) first) eqn:Hid; [|reflexivity].
  apply has_id_true in Hid. cbn [written id]. congruence.
Qed.

Lemma unique_ids_remove rows (address_id : Z) :
  unique_ids rows -> unique_ids (remove rows address_id).
Proof.
  unfold unique_ids, remove.
  induction rows as [| first rows IH]; cbn [map filter]; [auto|].
  intros Hnodup. apply NoDup_cons_iff in Hnodup.
  destruct Hnodup as [Hfirst Hnodup].
  destruct (negb (has_id address_id first)); cbn [map]; [|auto].
  apply NoDup_cons; [|auto].
  intros Hin. apply Hfirst. apply in_map_iff in Hin.
  destruct Hin as (row & Hid & Hin). apply filter_In in Hin.
  rewrite <- Hid. apply in_map. tauto.
Qed.

Lemma unique_ids_insert rows (address : Schemas.Addressbase F) :
  unique_ids rows ->
  unique_ids (rows ++ [row_of (next_rowid rows) address])%list.
Proof.
  unfold unique_ids. intros Hnodup. rewrite map_app.
  cbn [map id row_of object_of written].
  apply NoDup_app; [exact Hnodup | repeat constructor; intros [] |].
  intros x Hin [<- | []]. exact (next_rowid_fresh rows Hin).
Qed.

End Endpoints.

Section Binary64Store.

Import Db Binary64.

Local Unset Implicit Arguments.

Local Open Scope float_scope.

(** An address created at the latitude [-0.0] comes back at [0.0]. *)
Lemma negative_zero_read_back (libm : Libm) (database : list (AddressModel float)) :
  exists row database',
    get_db
      (create_addr (store := binary64_store libm)
         {| Schemas.name := "Origin"; Schemas.latitude := - 0;
            Schemas.longitude := 0 |}) database = (inr row, database') /\
    latitude row = 0.
Proof.
  eexists. eexists. rewrite create_addr_run. split; reflexivity.
Qed.

End Binary64Store.

(** ** Properties of crud.py and the endpoints *)

Section CrudProperties.

Import Db.

Context {F : Type} {arith : PyFloat F} {store : SqliteReal F}.

Local Unset Implicit Arguments.

Local Open Scope Z_scope.
Local Open Scope string_scope.

Implicit Types (rows database : list (AddressModel F)) (row : AddressModel F).

(** X1. Under the primary key, reading an address by the [id] of a
    stored row returns that row and leaves the database as it is. *)
Theorem read_addr_returns_row database row :
  unique_ids database -> In row database ->
  get_db (read_addr (id row)) database = (inr row, database).
Proof.
  intros Hunique Hin. rewrite read_addr_run, (find_unique database row Hunique Hin).
  reflexivity.
Qed.

(** X2. For an [id] in the range of an [Integer] that no row has,
    [get_address] raises a [ValueError] whose text is its own not-found
    message wrapped by its own [except], and [read_addr] answers 404;
    the database is left as it is. *)
Theorem read_addr_missing (address_id : Z) database :
  sqlite_integer address_id ->
  ~ In address_id (map id database) ->
  get_address address_id (SessionLocal database) =
    (inl (Py (ValueError ("Error retrieving address: Address with ID "
                            ++ str_int address_id ++ " not found"))),
     SessionLocal database) /\
  get_db (read_addr address_id) database =
    (inl (Py (HTTPException 404 "Address not found")), database).
Proof.
  intros _ Hmissing. apply find_missing in Hmissing.
  rewrite get_address_run, read_addr_run. cbn [table SessionLocal].
  rewrite Hmissing. split; reflexivity.
Qed.

(** X3. Updating an [id] in the range of an [Integer] that no row has
    fails with status 500, never 404: [update_address] raises a
    [ValueError] that wraps the message of [get_address], and
    [update_addr] turns it into the HTTP error; the database is left as
    it is. *)
Theorem update_addr_missing (address_id : Z) database
    (address : Schemas.AddressUpdate F) :
  sqlite_integer address_id ->
  ~ In address_id (map id database) ->
  update_address address_id address (SessionLocal database) =
    (inl (Py (ValueError
                ("Error updating address: Error retrieving address: "
                 ++ "Address with ID " ++ str_int address_id ++ " not found"))),
     SessionLocal database) /\
  get_db (update_addr address_id address) database =
    (inl (Py (HTTPException 500 "Failed to update address")), database).
Proof.
  intros _ Hmissing. apply find_missing in Hmissing.
  rewrite update_addr_run, Hmissing.
  split; [|reflexivity]. apply update_address_missing. exact Hmissing.
Qed.

(** X4. Deleting an [id] in the range of an [Integer] that no row has
    fails with status 500, never 404, in the same way, and the database
    is left as it is. *)
Theorem delete_addr_missing (address_id : Z) database :
  sqlite_integer address_id ->
  ~ In address_id (map id database) ->
  delete_address address_id (SessionLocal database) =
    (inl (Py (ValueError
                ("Error deleting address: Error retrieving address: "
                 ++ "Address with ID " ++ str_int address_id ++ " not found"))),
     SessionLocal database) /\
  get_db (delete_addr address_id) database =
    (inl (Py (HTTPException 500 "Failed to delete address")), database).
Proof.
  intros _ Hmissing. apply find_missing in Hmissing.
  rewrite delete_addr_run, Hmissing.
  split; [|reflexivity]. apply delete_address_missing. exact Hmissing.
Qed.

(** X5. While a rowid is left above those in use, creating an address
    from a request body that validates stores it after the rows already
    there, under an [id] none of them has, with the name of the request
    and its two coordinates as the [Float] columns give them back, and
    returns that row; the list of all addresses then ends with it. *)
Theorem create_addr_appends database (address : Schemas.AddressCreate F) :
  Schemas.validates address = true ->
  next_rowid database <= max_rowid ->
  exists row,
    get_db (create_addr address) database = (inr row, (database ++ [row])%list) /\
    ~ In (id row) (map id database) /\
    name row = Schemas.name address /\
    latitude row = sqlite_real (Schemas.latitude address) /\
    longitude row = sqlite_real (Schemas.longitude address) /\
    fst (get_db read_addrs (database ++ [row])%list) =
      inr (database ++ [row])%list.
Proof.
  intros _ _. exists (row_of (next_rowid database) address).
  rewrite create_addr_run, read_addrs_run.
  repeat split. apply next_rowid_fresh.
Qed.

(** X6. An address that was created is read back under the [id] it was
    given. *)
Theorem create_then_read database (address : Schemas.AddressCreate F) :
  exists row database',
    get_db (create_addr address) database = (inr row, database') /\
    get_db (read_addr (id row)) database' = (inr row, database').
Proof.
  exists (row_of (next_rowid database) address),
    (database ++ [row_of (next_rowid database) address])%list.
  rewrite create_addr_run, read_addr_run.
  change (id (row_of (next_rowid database) address))
    with (next_rowid database).
  rewrite (find_app_fresh (next_rowid database) database
             (row_of (next_rowid database) address)
             (next_rowid_fresh database) eq_refl).
  split; reflexivity.
Qed.

(** X7. Updating a stored [id] from a request body that validates
    returns the row that has this [id], the name of the request and its
    two coordinates as the [Float] columns give them back; the row is
    read back so, the number of rows is unchanged and every other [id]
    reads as before. *)
Theorem update_then_read (address_id : Z) database
    (address : Schemas.AddressUpdate F) :
  Schemas.validates address = true ->
  In address_id (map id database) ->
  exists database',
    row_of address_id address =
      {| id := address_id; name := Schemas.name address;
         latitude := sqlite_real (Schemas.latitude address);
         longitude := sqlite_real (Schemas.longitude address) |} /\
    get_db (update_addr address_id address) database =
      (inr (row_of address_id address), database') /\
    get_db (read_addr address_id) database' =
      (inr (row_of address_id address), database') /\
    List.length database' = List.length database /\
    forall other, other <> address_id ->
      fst (get_db (read_addr other) database') =
      fst (get_db (read_addr other) database).
Proof.
  intros _ Hstored.
  destruct (find_present _ _ Hstored) as (row & Hfind & _ & _).
  exists (update database (object_of address_id address)).
  rewrite update_addr_run, Hfind, read_addr_run.
  rewrite (find_update address_id database row (object_of address_id address)
             Hfind eq_refl).
  repeat split.
  - unfold update. apply length_map.
  - intros other Hother. rewrite !read_addr_run. cbn [fst].
    rewrite (find_update_other address_id other database
               (object_of address_id address) eq_refl Hother).
    reflexivity.
Qed.

(** X8. Deleting a stored [id] answers with the success message; the
    [id] then reads as not found (404) and every other [id] reads as
    before. *)
Theorem delete_then_read (address_id : Z) database :
  In address_id (map id database) ->
  exists database',
    get_db (delete_addr address_id) database =
      (inr [("detail", "Address deleted successfully")], database') /\
    get_db (read_addr address_id) database' =
      (inl (Py (HTTPException 404 "Address not found")), database') /\
    forall other, other <> address_id ->
      fst (get_db (read_addr other) database') =
      fst (get_db (read_addr other) database).
Proof.
  intros Hstored. destruct (find_present _ _ Hstored) as (row & Hfind & _ & _).
  exists (remove database address_id).
  rewrite delete_addr_run, Hfind, read_addr_run, find_remove.
  repeat split.
  intros other Hother. rewrite !read_addr_run. cbn [fst].
  rewrite (find_remove_other address_id other database Hother). reflexivity.
Qed.

(** X9. The three endpoints that write keep the primary key: if no two
    rows share an [id] before the request, none do after it, whether it
    succeeds or fails. *)
Theorem writes_keep_unique_ids (address_id : Z) database
    (address : Schemas.Addressbase F) :
  unique_ids database ->
  unique_ids (snd (get_db (create_addr address) database)) /\
  unique_ids (snd (get_db (update_addr address_id address) database)) /\
  unique_ids (snd (get_db (delete_addr address_id) database)).
Proof.
  intros Hunique. rewrite create_addr_run, update_addr_run, delete_addr_run.
  cbn [snd]. split; [apply unique_ids_insert; exact Hunique|].
  destruct (find (has_id address_id) database); cbn [snd]; split; trivial.
  - unfold unique_ids. rewrite ids_of_update. exact Hunique.
  - apply unique_ids_remove. exact Hunique.
Qed.

End CrudProperties.

Section StoredProperties.

Import Db.

Context {F : Type} {arith : PyFloat F} {store : SqliteReal F}.

Local Unset Implicit Arguments.

Implicit Types (rows database : list (AddressModel F)) (row : AddressModel F).

(** A stored coordinate is in an interval when the written one is. *)
Lemma between_sqlite_real (lo hi : Z) (x : F) :
  between lo (sqlite_real x) hi = between lo x hi.
Proof. unfold between. rewrite sqlite_real_le, sqlite_real_ge. reflexivity. Qed.

Lemma stored_validates_row_of (address_id : Z) (address : Schemas.Addressbase F) :
  stored_validates (row_of address_id address) = Schemas.validates address.
Proof.
  destruct address. unfold stored_validates, Schemas.validates.
  cbn [row_of object_of written name latitude longitude
       Schemas.name Schemas.latitude Schemas.longitude].
  rewrite !between_sqlite_real. reflexivity.
Qed.

Lemma all_validate_insert rows (address : Schemas.Addressbase F) :
  Schemas.validates address = true -> all_validate rows ->
  all_validate (rows ++ [row_of (next_rowid rows) address]).
Proof.
  intros Hvalid Hrows. apply Forall_app. split; [exact Hrows|].
  constructor; [|constructor]. rewrite stored_validates_row_of. exact Hvalid.
Qed.

Lemma all_validate_update rows (address_id : Z) (address : Schemas.Addressbase F) :
  Schemas.validates address = true -> all_validate rows ->
  all_validate (update rows (object_of address_id address)).
Proof.
  intros Hvalid Hrows. unfold update, all_validate in *.
  apply Forall_map. apply (Forall_impl _ (P := fun row => stored_validates row = true));
    [|exact Hrows].
  intros row Hrow. destruct (has_id _ row); [|exact Hrow].
  fold (row_of address_id address).
  rewrite stored_validates_row_of. exact Hvalid.
Qed.

Lemma all_validate_remove rows (address_id : Z) :
  all_validate rows -> all_validate (remove rows address_id).
Proof.
  unfold all_validate, remove. rewrite !Forall_forall.
  intros Hrows row Hin. apply filter_In in Hin. apply Hrows, Hin.
Qed.

(** X10. The endpoints that write keep the constraints of schemas.py on
    the stored rows: when every stored row satisfies them and the
    request body does, every stored row satisfies them after a create,
    an update or a delete, found or not. *)
Theorem writes_keep_rows_valid (address_id : Z) database
    (address : Schemas.Addressbase F) :
  Schemas.validates address = true -> all_validate database ->
  all_validate (snd (get_db (create_addr address) database)) /\
  all_validate (snd (get_db (update_addr address_id address) database)) /\
  all_validate (snd (get_db (delete_addr address_id) database)).
Proof.
  intros Hvalid Hrows.
  rewrite create_addr_run, update_addr_run, delete_addr_run. cbn [snd].
  split; [apply all_validate_insert; assumption|].
  destruct (find (has_id address_id) database); cbn [snd]; split; trivial.
  - apply all_validate_update; assumption.
  - apply all_validate_remove; assumption.
Qed.

Lemma reachable_invariant database :
  reachable database -> unique_ids database /\ all_validate database.
Proof.
  induction 1 as [| database address _ [Hunique Hrows] Hvalid
                  | database address_id address _ [Hunique Hrows] Hvalid
                  | database address_id _ [Hunique Hrows]].
  - split; constructor.
  - rewrite create_addr_run. cbn [snd].
    split; [apply unique_ids_insert | apply all_validate_insert]; assumption.
  - rewrite update_addr_run.
    destruct (find (has_id address_id) database); cbn [snd]; [|auto].
    split; [|apply all_validate_update; assumption].
    unfold unique_ids. rewrite ids_of_update. exact Hunique.
  - rewrite delete_addr_run.
    destruct (find (has_id address_id) database); cbn [snd]; [|auto].
    split; [apply unique_ids_remove | apply all_validate_remove]; assumption.
Qed.

End StoredProperties.

Section SessionProperties.

Import Db.

Context {F : Type} {arith : PyFloat F} {store : SqliteReal F}.

Local Unset Implicit Arguments.

(** X11. The three functions of crud.py that write leave no change
    waiting in the session, whatever was waiting in it before and
    whether they return or raise: each path ends in a commit or in a
    rollback. *)
Theorem crud_leaves_session_clean (address_id : Z) (db : Session F)
    (address : Schemas.Addressbase F) :
  clean (snd (create_address address db)) /\
  clean (snd (update_address address_id address db)) /\
  clean (snd (delete_address address_id db)).
Proof.
  split; [|split].
  - unfold create_address, try_except, bind, add, commit, refresh.
    cbn [table new dirty deleted].
    match goal with |- context [rev ?l] => destruct (rev l) end;
      [repeat split|].
    match goal with |- context [find ?f ?l] => destruct (find f l) end;
      repeat split.
  - unfold update_address, try_except, bind. rewrite get_address_run.
    destruct (find (has_id address_id) (table db)); [|repeat split].
    unfold setattr_name, setattr_latitude, setattr_longitude, bind, modified,
      ret, commit, refresh.
    cbn [table new dirty deleted].
    match goal with |- context [find ?f ?l] => destruct (find f l) end;
      repeat split.
  - unfold delete_address, try_except, bind. rewrite get_address_run.
    destruct (find (has_id address_id) (table db)); repeat split.
Qed.

End SessionProperties.

(** ** More on the distance and the search *)

Section TraceLaws.

Context {F A B : Type}.

Local Unset Implicit Arguments.

Lemma trace_bind (m : M F A) (k : A -> M F B) :
  trace (bind m k) =
  trace m ++ match result m with
             | inl _ => []
             | inr a => trace (k a)
             end.
Proof.
  unfold trace, result, bind. destruct (snd m); cbn [fst];
    [rewrite app_nil_r|]; reflexivity.
Qed.

Lemma trace_try_except (m : M F A) (h : exn -> M F A) :
  trace (try_except m h) =
  trace m ++ match result m with
             | inl e => trace (h e)
             | inr _ => []
             end.
Proof.
  unfold trace, result, try_except. destruct (snd m); cbn [fst];
    [|rewrite app_nil_r]; reflexivity.
Qed.

End TraceLaws.

Section SearchProperties.

Context {F : Type} {arith : PyFloat F} {store : Db.SqliteReal F}.

Local Unset Implicit Arguments.

Implicit Types (lat lon distance_km : F) (db : list (AddressModel F)).

Lemma distance_calls_app (l1 l2 : list (event F)) :
  distance_calls (l1 ++ l2) = distance_calls l1 ++ distance_calls l2.
Proof. apply flat_map_app. Qed.

Lemma store_queries_app (l1 l2 : list (event F)) :
  store_queries (l1 ++ l2) = (store_queries l1 + store_queries l2)%nat.
Proof. unfold store_queries. rewrite filter_app. apply length_app. Qed.

Lemma math_only_bind {A B} (m : M F A) (k : A -> M F B) :
  math_only m -> (forall a, math_only (k a)) -> math_only (bind m k).
Proof.
  intros [Hd Hq] Hk. unfold math_only.
  rewrite trace_bind, distance_calls_app, store_queries_app, Hd, Hq.
  destruct (result m) as [e | a]; [split; reflexivity | apply Hk].
Qed.

Lemma math_only_call (f : math_fn) (r : option F) (args : list F) :
  math_only (call f r args).
Proof. destruct r; split; reflexivity. Qed.

Lemma math_only_haversine (lat1 lon1 lat2 lon2 : F) :
  math_only (haversine_distance lat1 lon1 lat2 lon2).
Proof.
  unfold haversine_distance.
  destruct (_ || _); [split; reflexivity|].
  destruct (_ || _); [split; reflexivity|].
  unfold math_radians, math_sin, math_cos, math_sqrt, math_atan2.
  repeat (apply math_only_bind; [apply math_only_call | intros ?]).
  split; reflexivity.
Qed.

Lemma examine_calls lat lon distance_km (addr : AddressModel F)
    (acc : list (AddressModel F)) :
  distance_calls (trace (examine lat lon distance_km addr acc)) = [id addr] /\
  store_queries (trace (examine lat lon distance_km addr acc)) = 0%nat.
Proof.
  unfold examine.
  destruct (math_only_haversine lat lon (latitude addr) (longitude addr))
    as [Hd Hq].
  rewrite trace_try_except, !trace_bind, !result_bind, result_tell.
  rewrite !distance_calls_app, !store_queries_app, Hd, Hq.
  destruct (result (haversine_distance lat lon (latitude addr) (longitude addr)))
    as [e | dist]; [split; reflexivity|].
  destruct (fle dist distance_km); split; reflexivity.
Qed.

Lemma scan_calls lat lon distance_km db (acc : list (AddressModel F)) :
  distance_calls (trace (scan lat lon distance_km db acc)) = map id db /\
  store_queries (trace (scan lat lon distance_km db acc)) = 0%nat.
Proof.
  revert acc. induction db as [| addr rest IH]; intros acc;
    [split; reflexivity|].
  cbn [scan map]. rewrite trace_bind, examine_result.
  destruct (examine_calls lat lon distance_km addr acc) as [Hd Hq].
  rewrite distance_calls_app, store_queries_app, Hd, Hq.
  destruct (IH (if within lat lon distance_km addr then acc ++ [addr] else acc))
    as [Hd' Hq'].
  rewrite Hd', Hq'. split; reflexivity.
Qed.

(** X12. The search fails exactly when its three checks do, and then
    with status 500; when they pass it returns, whatever the rows and
    whatever the arithmetic does. *)
Theorem search_fails_only_on_validation lat lon distance_km db :
  (accepted lat lon distance_km ->
   exists found,
     result (get_addresses_within_distance lat lon distance_km db) = inr found) /\
  (~ accepted lat lon distance_km ->
   result (get_addresses_within_distance lat lon distance_km db) =
     inl search_failed).
Proof.
  split.
  - intros Hacc. eexists. apply endpoint_result. exact Hacc.
  - intros Hrejected. unfold get_addresses_within_distance.
    rewrite result_try_except. unfold search, accepted in *.
    destruct (between (-90) lat 90); [|reflexivity].
    destruct (between (-180) lon 180); [|reflexivity].
    destruct (fle distance_km (of_int 0)); [reflexivity|].
    exfalso. apply Hrejected. repeat split.
Qed.

(** X13. A search whose checks pass queries the store once and runs
    the distance function once for every stored row, in the order of
    the store, also after a row for which it raised. *)
Theorem search_examines_every_row lat lon distance_km db :
  accepted lat lon distance_km ->
  distance_calls (trace (get_addresses_within_distance lat lon distance_km db))
    = map id db /\
  store_queries (trace (get_addresses_within_distance lat lon distance_km db))
    = 1%nat.
Proof.
  intros Hacc. unfold get_addresses_within_distance.
  rewrite trace_try_except, (search_result db Hacc).
  destruct Hacc as (Hlat & Hlon & Hradius). unfold search.
  rewrite Hlat, Hlon, Hradius. cbn [negb].
  rewrite trace_bind.
  change (result (query_all db)) with (@inr exn _ db).
  change (trace (query_all db)) with [@QueryAll F]. cbv beta iota.
  rewrite trace_bind, scan_result. cbv beta iota.
  destruct (scan_calls lat lon distance_km db []) as [Hd Hq].
  rewrite !distance_calls_app, !store_queries_app, Hd, Hq.
  cbn. rewrite !app_nil_r. split; reflexivity.
Qed.

(** X14. The distance function raises nothing but its latitude error,
    its longitude error and the domain error of [math]. *)
Theorem haversine_distance_errors (lat1 lon1 lat2 lon2 : F) (e : exn) :
  result (haversine_distance lat1 lon1 lat2 lon2) = inl e ->
  e = latitude_error \/ e = longitude_error \/ e = domain_error.
Proof.
  intros Hraised.
  destruct (between (-90) lat1 90 && between (-90) lat2 90) eqn:Hlat.
  - destruct (between (-180) lon1 180 && between (-180) lon2 180) eqn:Hlon.
    + apply andb_true_iff in Hlat, Hlon.
      rewrite haversine_distance_formula in Hraised by tauto.
      destruct (formula lat1 lon1 lat2 lon2); [discriminate|].
      injection Hraised as <-. auto.
    + apply andb_true_iff in Hlat. apply andb_false_iff in Hlon.
      rewrite haversine_longitude_rejected in Hraised by tauto.
      injection Hraised as <-. auto.
  - apply andb_false_iff in Hlat.
    rewrite haversine_latitude_rejected in Hraised by tauto.
    injection Hraised as <-. auto.
Qed.

Lemma stored_validates_between (row : AddressModel F) :
  stored_validates row = true ->
  between (-90) (latitude row) 90 = true /\
  between (-180) (longitude row) 180 = true.
Proof.
  unfold stored_validates, Schemas.validates.
  cbn [Schemas.name Schemas.latitude Schemas.longitude].
  rewrite !andb_true_iff. tauto.
Qed.

(** X17. In a database built from the empty one through the endpoints,
    with request bodies that validate, the distance function rejects
    no stored row for its coordinates: from a center in its domain it
    returns the value of the formula for the row, or raises the domain
    error of [math] where the formula has none. *)
Theorem stored_rows_pass_the_checks lat lon (database : list (AddressModel F))
    (row : AddressModel F) :
  reachable database -> In row database ->
  between (-90) lat 90 = true -> between (-180) lon 180 = true ->
  result (haversine_distance lat lon (latitude row) (longitude row)) =
  match formula lat lon (latitude row) (longitude row) with
  | Some distance => inr distance
  | None => inl domain_error
  end.
Proof.
  intros Hreach Hin Hlat Hlon.
  destruct (reachable_invariant database Hreach) as [_ Hrows].
  unfold all_validate in Hrows. rewrite Forall_forall in Hrows.
  destruct (stored_validates_between row (Hrows row Hin)) as [Hrlat Hrlon].
  apply haversine_distance_formula; assumption.
Qed.

End SearchProperties.

Section ExactProperties.

Import Db.

Local Unset Implicit Arguments.

Implicit Types (lat lon distance_km : R) (db database : list (AddressModel R)).

Lemma validates_exact (address : Schemas.Addressbase R) :
  Schemas.validates address = true <->
  (Schemas.len (Schemas.name address) <= 10)%nat /\
  valid_latitude (Schemas.latitude address) /\
  valid_longitude (Schemas.longitude address).
Proof.
  unfold Schemas.validates.
  rewrite !andb_true_iff, Nat.leb_le, between_latitude, between_longitude.
  tauto.
Qed.

(** X15. An address created from a request body that validates is
    found by a search centered on its own coordinates, within any
    positive radius, in exact arithmetic. *)
Theorem created_address_is_found database (address : Schemas.AddressCreate R)
    distance_km :
  Schemas.validates address = true -> 0 < distance_km ->
  exists row database' found,
    get_db (create_addr address) database = (inr row, database') /\
    result (get_addresses_within_distance
              (Schemas.latitude address) (Schemas.longitude address)
              distance_km database') = inr found /\
    In row found.
Proof.
  intros Hvalid Hradius. apply validates_exact in Hvalid.
  destruct Hvalid as (_ & Hlat & Hlon).
  set (row := row_of (next_rowid database) address).
  exists row, (database ++ [row]), (filter
    (within (Schemas.latitude address) (Schemas.longitude address) distance_km)
    (database ++ [row])).
  split; [apply create_addr_run|].
  split; [apply endpoint_result, accepted_exact; assumption|].
  apply filter_In. split; [apply in_or_app; right; left; reflexivity|].
  rewrite within_exact by (trivial; split; assumption).
  unfold distance_to. cbn [latitude longitude row row_of].
  rewrite haversine_same. apply Rleb_true. lra.
Qed.

(** X16. The search is monotone in the radius, in exact arithmetic:
    with the same center and store, every row found within a radius is
    found within any larger one. *)
Theorem search_monotone_in_radius lat lon (small large : R) db :
  valid_latitude lat -> valid_longitude lon -> 0 < small -> small <= large ->
  exists found_small found_large,
    result (get_addresses_within_distance lat lon small db) = inr found_small /\
    result (get_addresses_within_distance lat lon large db) = inr found_large /\
    forall addr, In addr found_small -> In addr found_large.
Proof.
  intros Hlat Hlon Hsmall Hle.
  assert (Hlarge : 0 < large) by lra.
  exists (filter (within lat lon small) db), (filter (within lat lon large) db).
  split; [apply endpoint_result, accepted_exact; assumption|].
  split; [apply endpoint_result, accepted_exact; assumption|].
  intros addr Hin. apply filter_In in Hin. destruct Hin as [Hin Hsmall_in].
  apply filter_In. split; [exact Hin|].
  unfold within in *.
  destruct (result (haversine_distance lat lon (latitude addr) (longitude addr)))
    as [e | dist]; [discriminate|].
  cbn [fle exact] in *. apply Rleb_true in Hsmall_in. apply Rleb_true. lra.
Qed.

End ExactProperties.

(** ** Witnesses of the properties *)

Section PropertyWitnesses.

Import Db.

Local Unset Implicit Arguments.

Lemma sample_unique_ids : unique_ids [home; far].
Proof.
  unfold unique_ids. cbn [map id home far].
  repeat constructor; cbn [In]; intuition discriminate.
Qed.

Lemma sample_missing : ~ In 7%Z (map id [home; far]).
Proof. cbn. intuition discriminate. Qed.

Lemma sample_integer : sqlite_integer 7.
Proof. unfold sqlite_integer. lia. Qed.

Lemma sample_rowid : (next_rowid [home; far] <= max_rowid)%Z.
Proof. vm_compute. discriminate. Qed.

Lemma sample_stored : In 2%Z (map id [home; far]).
Proof. cbn. auto. Qed.

Lemma office_validates : Schemas.validates office = true.
Proof.
  apply validates_exact. cbn [office Schemas.name Schemas.latitude
    Schemas.longitude].
  unfold valid_latitude, valid_longitude.
  repeat split; try lra. vm_compute. lia.
Qed.

(** The length of a name is counted in characters, not in bytes. *)
Lemma accented_validates :
  String.length (Schemas.name accented) = 12%nat /\
  Schemas.len (Schemas.name accented) = 6%nat /\
  Schemas.validates accented = true.
Proof.
  split; [reflexivity|]. split; [reflexivity|].
  apply validates_exact. cbn [accented Schemas.name Schemas.latitude
    Schemas.longitude].
  unfold valid_latitude, valid_longitude.
  repeat split; try lra. vm_compute. lia.
Qed.

Lemma sample_all_validate : all_validate [home; far].
Proof.
  repeat constructor; apply validates_exact;
    cbn [home far name latitude longitude Schemas.name Schemas.latitude
         Schemas.longitude];
    unfold valid_latitude, valid_longitude;
    repeat split; try lra; vm_compute; lia.
Qed.

Lemma sample_accepted : accepted (F := R) 0 0 10.
Proof.
  apply accepted_exact; [exact valid_latitude_0 | exact valid_longitude_0 | lra].
Qed.

Lemma read_addr_returns_row_witness :
  get_db (read_addr (id far)) [home; far] = (inr far, [home; far]).
Proof.
  apply read_addr_returns_row; [exact sample_unique_ids | right; left; reflexivity].
Defined.

Lemma read_addr_missing_witness :
  get_db (read_addr 7) [home; far] =
    (inl (Py (HTTPException 404 "Address not found")), [home; far]).
Proof.
  apply (read_addr_missing 7 [home; far] sample_integer sample_missing).
Defined.

Lemma update_addr_missing_witness :
  get_db (update_addr 7 office) [home; far] =
    (inl (Py (HTTPException 500 "Failed to update address")), [home; far]).
Proof.
  apply (update_addr_missing 7 [home; far] office sample_integer sample_missing).
Defined.

Lemma delete_addr_missing_witness :
  get_db (delete_addr 7) [home; far] =
    (inl (Py (HTTPException 500 "Failed to delete address")), [home; far]).
Proof.
  apply (delete_addr_missing 7 [home; far] sample_integer sample_missing).
Defined.

Lemma update_then_read_witness :
  exists database',
    row_of 2 office =
      {| id := 2; name := "Office"; latitude := 12.9716;
         longitude := 77.5946 |} /\
    get_db (update_addr 2 office) [home; far] = (inr (row_of 2 office), database') /\
    get_db (read_addr 2) database' = (inr (row_of 2 office), database') /\
    List.length database' = List.length [home; far] /\
    forall other, other <> 2%Z ->
      fst (get_db (read_addr other) database') =
      fst (get_db (read_addr other) [home; far]).
Proof.
  exact (update_then_read 2 [home; far] office office_validates sample_stored).
Defined.

Lemma create_addr_appends_witness :
  exists row,
    get_db (create_addr office) [home; far] = (inr row, [home; far; row]) /\
    ~ In (id row) (map id [home; far]) /\
    name row = "Office"%string /\
    latitude row = 12.9716 /\
    longitude row = 77.5946 /\
    fst (get_db read_addrs [home; far; row]) = inr [home; far; row].
Proof.
  exact (create_addr_appends [home; far] office office_validates sample_rowid).
Defined.

Lemma delete_then_read_witness :
  exists database',
    get_db (delete_addr 2) [home; far] =
      (inr deleted_response, database') /\
    get_db (read_addr 2) database' =
      (inl (Py (HTTPException 404 "Address not found")), database') /\
    forall other, other <> 2%Z ->
      fst (get_db (read_addr other) database') =
      fst (get_db (read_addr other) [home; far]).
Proof. apply (delete_then_read 2 [home; far] sample_stored). Defined.

Lemma writes_keep_unique_ids_witness :
  unique_ids (snd (get_db (create_addr office) [home; far])) /\
  unique_ids (snd (get_db (update_addr 2 office) [home; far])) /\
  unique_ids (snd (get_db (delete_addr 2) [home; far])).
Proof. apply (writes_keep_unique_ids 2 [home; far] office sample_unique_ids). Defined.

Lemma writes_keep_rows_valid_witness :
  all_validate (snd (get_db (create_addr office) [home; far])) /\
  all_validate (snd (get_db (update_addr 2 office) [home; far])) /\
  all_validate (snd (get_db (delete_addr 2) [home; far])).
Proof.
  apply (writes_keep_rows_valid 2 [home; far] office office_validates
           sample_all_validate).
Defined.

Lemma search_examines_every_row_witness :
  distance_calls (trace (get_addresses_within_distance 0 0 10 [home; broken; far]))
    = [1; 3; 2]%Z /\
  store_queries (trace (get_addresses_within_distance 0 0 10 [home; broken; far]))
    = 1%nat.
Proof.
  apply (search_examines_every_row 0 0 10 [home; broken; far] sample_accepted).
Defined.

Lemma haversine_distance_errors_witness :
  latitude_error = latitude_error \/ latitude_error = longitude_error \/
  latitude_error = domain_error.
Proof.
  apply (haversine_distance_errors (F := R) 100 0 0 0 latitude_error).
  apply (proj1 same_error_for_both_latitudes).
Defined.

Lemma created_address_is_found_witness :
  exists row database' found,
    get_db (create_addr office) [home; far] = (inr row, database') /\
    result (get_addresses_within_distance 12.9716 77.5946 10 database') =
      inr found /\
    In row found.
Proof.
  apply (created_address_is_found [home; far] office 10 office_validates).
  lra.
Defined.

Lemma search_monotone_in_radius_witness :
  exists found_small found_large,
    result (get_addresses_within_distance 0 0 10 [home; far]) = inr found_small /\
    result (get_addresses_within_distance 0 0 30000 [home; far]) = inr found_large /\
    forall addr, In addr found_small -> In addr found_large.
Proof.
  apply (search_monotone_in_radius 0 0 10 30000 [home; far]
           valid_latitude_0 valid_longitude_0); lra.
Defined.

Lemma stored_rows_pass_the_checks_witness :
  result (haversine_distance 0 0 12.9716 77.5946) =
  match formula 0 0 12.9716 77.5946 with
  | Some distance => inr distance
  | None => inl domain_error
  end.
Proof.
  refine (stored_rows_pass_the_checks 0 0
            (snd (get_db (create_addr office) [])) (row_of 1 office) _ _ _ _).
  - apply reachable_create; [apply reachable_empty | exact office_validates].
  - rewrite create_addr_run. left. reflexivity.
  - apply between_latitude. exact valid_latitude_0.
  - apply between_longitude. exact valid_longitude_0.
Defined.

End PropertyWitnesses.
